(** * A shallow embedding of the blog application in [sample/app/main.py]

    The development follows the Python module top to bottom: the models
    ([User], [Post], [Category]), the two forms, the views ([index],
    [login], [logout], [account], [archive]) and the bootstrap hook
    [initialize_data].  The framework pieces the module calls into
    (wtforms' [DataRequired], Flask-WTF's CSRF check, Flask-Login's
    [login_required], Werkzeug's [request.url], the [paginate] method
    of Flask-SQLAlchemy 2.x, Python's [datetime] constructor) are
    written out next to the code that uses them.  A string holds one
    code point below 256 per character; URL quoting, which Werkzeug
    does on UTF-8 bytes, is exact on ASCII text. *)

From Stdlib Require Import ZArith List String Ascii Bool Lia.
From Stdlib Require Import Sorting.Sorted Sorting.Permutation.
From Stdlib Require Import DecimalString DecimalZ DecimalPos.
Import ListNotations.

Local Open Scope string_scope.
Local Open Scope list_scope.
Local Open Scope Z_scope.

(** ** Exceptions and results *)

Inductive Exception : Type :=
| ValueError (msg : string)
| OverflowError
| MultipleResultsFound
| IntegrityError
| AttributeError
| Abort (code : Z).

Inductive Result (A : Type) : Type :=
| Ok (a : A)
| Raise (e : Exception).

Arguments Ok {A} a.
Arguments Raise {A} e.

(** ** Python values *)

(** [str(z)] for an integer. *)
Definition string_of_Z (z : Z) : string :=
  NilZero.string_of_int (Z.to_int z).

(** Truth value of a Python string. *)
Definition truthy (s : string) : bool :=
  match s with
  | EmptyString => false
  | String _ _ => true
  end.

(** ** [datetime] *)

Record datetime : Type := mk_datetime {
  year : Z;
  month : Z;
  day : Z;
  hour : Z;
  minute : Z;
  second : Z;
  microsecond : Z
}.

Definition is_leap (y : Z) : bool :=
  (y mod 4 =? 0) && (negb (y mod 100 =? 0) || (y mod 400 =? 0)).

Definition days_in_month (y m : Z) : Z :=
  if m =? 2 then (if is_leap y then 29 else 28)
  else if (m =? 4) || (m =? 6) || (m =? 9) || (m =? 11) then 30
  else 31.

Definition MINYEAR : Z := 1.
Definition MAXYEAR : Z := 9999.

(** The range of a C [int]. *)
Definition INT_MIN : Z := - 2147483648.
Definition INT_MAX : Z := 2147483647.

Definition fits_int (z : Z) : bool := (INT_MIN <=? z) && (z <=? INT_MAX).

(** [datetime(year, month, day)]: the arguments are first converted to
    C [int]s, which fails with [OverflowError]; then the three date
    fields are range-checked in this order, and the time fields default
    to zero. *)
Definition datetime_new (y m d : Z) : Result datetime :=
  if negb (fits_int y && fits_int m && fits_int d) then
    Raise OverflowError
  else if negb ((MINYEAR <=? y) && (y <=? MAXYEAR)) then
    Raise (ValueError ("year " ++ string_of_Z y ++ " is out of range")%string)
  else if negb ((1 <=? m) && (m <=? 12)) then
    Raise (ValueError "month must be in 1..12")
  else if negb ((1 <=? d) && (d <=? days_in_month y m)) then
    Raise (ValueError "day is out of range for month")
  else Ok (mk_datetime y m d 0 0 0 0).

(** Naive datetimes compare field by field, most significant first. *)
Definition fields (d : datetime) : list Z :=
  [year d; month d; day d; hour d; minute d; second d; microsecond d].

Fixpoint lex_compare (a b : list Z) : comparison :=
  match a, b with
  | [], [] => Eq
  | [], _ :: _ => Lt
  | _ :: _, [] => Gt
  | x :: a', y :: b' =>
      match x ?= y with
      | Eq => lex_compare a' b'
      | c => c
      end
  end.

Definition datetime_compare (a b : datetime) : comparison :=
  lex_compare (fields a) (fields b).

Definition datetime_gt (a b : datetime) : bool :=
  match datetime_compare a b with Gt => true | _ => false end.

Definition datetime_le (a b : datetime) : bool :=
  match datetime_compare a b with Gt => false | _ => true end.

Definition datetime_lt (a b : datetime) : bool :=
  match datetime_compare a b with Lt => true | _ => false end.

(** ** Models *)

Module User.
Record t : Type := mk {
  id : Z;
  email : string;
  password : string
}.

Definition check_password (self : t) (pw : string) : bool :=
  String.eqb (password self) pw.

(** [UserMixin.get_id]: the key as text. *)
Definition get_id (self : t) : string := string_of_Z (id self).
End User.

Module Category.
Record t : Type := mk {
  id : Z;
  name : string
}.
End Category.

Module Post.
Record t : Type := mk {
  id : Z;
  title : string;
  body : string;
  pub_date : datetime;
  category_id : option Z
}.
End Post.

(** The tables of the database. *)
Record Database : Type := mk_db {
  users : list User.t;
  posts : list Post.t;
  categories : list Category.t
}.

(** Objects handed to [db.session.add] and not yet committed. *)
Inductive Pending : Type :=
| NewUser (email password : string)
| NewCategory (name : string).

Inductive Table : Type := TUser | TPost | TCategory.

(** Everything a request handler can read or change: the database, the
    unit of work [db.session], the login session, the flashed messages,
    and a log of the tables queried so far. *)
Record World : Type := mk_world {
  db : Database;
  db_session : list Pending;
  session_user_id : option string;
  flashes : list string;
  query_log : list Table
}.

(** ** The monad of handlers: state plus exceptions *)

Definition App (A : Type) : Type := World -> Result (A * World).

Definition ret {A : Type} (a : A) : App A := fun w => Ok (a, w).

Definition bind {A B : Type} (m : App A) (k : A -> App B) : App B :=
  fun w =>
    match m w with
    | Ok (a, w') => k a w'
    | Raise e => Raise e
    end.

Definition raise {A : Type} (e : Exception) : App A := fun _ => Raise e.

Definition lift {A : Type} (r : Result A) : App A :=
  fun w =>
    match r with
    | Ok a => Ok (a, w)
    | Raise e => Raise e
    end.

Notation "x <- m ;; k" := (bind m (fun x => k))
  (at level 61, m at next level, right associativity).
Notation "m ;;; k" := (bind m (fun _ => k))
  (at level 61, right associativity).

Definition get_world : App World := fun w => Ok (w, w).

Definition log_query (t : Table) : App unit :=
  fun w => Ok (tt, mk_world (db w) (db_session w) (session_user_id w)
                            (flashes w) (query_log w ++ [t])).

Definition flash (msg : string) : App unit :=
  fun w => Ok (tt, mk_world (db w) (db_session w) (session_user_id w)
                            (flashes w ++ [msg]) (query_log w)).

Definition set_session_user_id (u : option string) : App unit :=
  fun w => Ok (tt, mk_world (db w) (db_session w) u (flashes w) (query_log w)).

(** ** The persistence layer *)

(** [Query.one_or_none()]. *)
Definition one_or_none {A : Type} (rows : list A) : Result (option A) :=
  match rows with
  | [] => Ok None
  | [x] => Ok (Some x)
  | _ :: _ :: _ => Raise MultipleResultsFound
  end.

(** [User.query.filter_by(email=e).one_or_none()]. *)
Definition User_filter_by_email (e : string) : App (option User.t) :=
  log_query TUser ;;;
  w <- get_world ;;
  lift (one_or_none
          (filter (fun u => String.eqb (User.email u) e) (users (db w)))).

(** [User.query.get(uid)]: lookup by primary key.  The key comes as
    the text the session holds, which is the decimal text of an id. *)
Definition User_get (uid : string) : App (option User.t) :=
  log_query TUser ;;;
  w <- get_world ;;
  ret (find (fun u => String.eqb (User.get_id u) uid) (users (db w))).

(** The [user_loader] callback. *)
Definition load_user (user_id : option string) : App (option User.t) :=
  match user_id with
  | Some uid => if truthy uid then User_get uid else ret None
  | None => ret None
  end.

(** ** Forms *)

(** [str.isspace] on the code points below 256. *)
Definition isspace (c : ascii) : bool :=
  let n := Z.of_nat (nat_of_ascii c) in
  ((9 <=? n) && (n <=? 13)) || ((28 <=? n) && (n <=? 32))
  || (n =? 133) || (n =? 160).

Fixpoint lstrip (s : string) : string :=
  match s with
  | EmptyString => EmptyString
  | String c s' => if isspace c then lstrip s' else s
  end.

Fixpoint rstrip (s : string) : string :=
  match s with
  | EmptyString => EmptyString
  | String c s' =>
      match rstrip s' with
      | EmptyString => if isspace c then EmptyString else String c EmptyString
      | r => String c r
      end
  end.

Definition strip (s : string) : string := rstrip (lstrip s).

Record Field : Type := mk_field {
  data : string;
  errors : list string
}.

(** wtforms' [DataRequired]: the data must be true and, being a string,
    must not consist of whitespace only; otherwise validation of the
    field stops with the message returned here. *)
Definition DataRequired (f : Field) : option string :=
  if truthy (data f) && truthy (strip (data f)) then None
  else Some "This field is required.".

(** [Field.validate] for a field whose validator chain is
    [[DataRequired()]]: the error list is reset, then the chain runs. *)
Definition Field_validate (f : Field) : Field :=
  match DataRequired f with
  | None => mk_field (data f) []
  | Some msg => mk_field (data f) [msg]
  end.

Definition no_errors (f : Field) : bool :=
  match errors f with
  | [] => true
  | _ :: _ => false
  end.

(** Flask-WTF's [validate_csrf_token]: [csrf] is what [validate_csrf]
    raises for the submitted token against the session, [None] when the
    token is valid; the message becomes the error of the [csrf_token]
    field. *)
Definition csrf_validate (csrf : option string) : list string :=
  match csrf with
  | None => []
  | Some msg => [msg]
  end.

Definition no_csrf_errors (errs : list string) : bool :=
  match errs with
  | [] => true
  | _ :: _ => false
  end.

Module LoginForm.
Record t : Type := mk {
  email : Field;
  password : Field;
  csrf_token_errors : list string;
  user : option User.t
}.

(** [__init__]: the fields are bound to the submitted data and
    [self.user] starts as [None]. *)
Definition init (email_data password_data : string) : t :=
  mk (mk_field email_data []) (mk_field password_data []) [] None.

(** [FlaskForm.validate]: every field is validated, the CSRF token
    among them, and the form is valid when no field reported an
    error. *)
Definition FlaskForm_validate (csrf : option string) (self : t) : t * bool :=
  let e := Field_validate (email self) in
  let p := Field_validate (password self) in
  let c := csrf_validate csrf in
  (mk e p c (user self), no_errors e && no_errors p && no_csrf_errors c).

Definition invalid_credentials : string :=
  "Invalid email and/or password specified.".

(** The last [validate] of the class body, which is the one in force. *)
Definition validate (csrf : option string) (self : t) : App (bool * t) :=
  let (self, rv) := FlaskForm_validate csrf self in
  if negb rv then ret (false, self)
  else
    found <- User_filter_by_email (data (email self)) ;;
    let matched :=
      match found with
      | Some u =>
          if User.check_password u (data (password self)) then Some u
          else None
      | None => None
      end in
    match matched with
    | Some u =>
        ret (true, mk (email self) (password self) (csrf_token_errors self)
                      (Some u))
    | None =>
        ret (false,
             mk (email self)
                (mk_field (data (password self))
                          (errors (password self) ++ [invalid_credentials]))
                (csrf_token_errors self)
                (user self))
    end.
End LoginForm.

(** ** Ordering and pagination of posts *)

(** [order_by(Post.pub_date.desc())]: rows with equal timestamps keep
    their table order. *)
Fixpoint insert_desc (p : Post.t) (l : list Post.t) : list Post.t :=
  match l with
  | [] => [p]
  | q :: l' =>
      if datetime_le (Post.pub_date q) (Post.pub_date p) then p :: l
      else q :: insert_desc p l'
  end.

Fixpoint order_by_pub_date_desc (l : list Post.t) : list Post.t :=
  match l with
  | [] => []
  | p :: l' => insert_desc p (order_by_pub_date_desc l')
  end.

Module Pagination.
Record t : Type := mk {
  page : Z;
  per_page : Z;
  total : Z;
  items : list Post.t
}.

(** [int(ceil(total / float(per_page)))]. *)
Definition pages (self : t) : Z :=
  if per_page self =? 0 then 0
  else - ((- total self) / per_page self).

Definition has_prev (self : t) : bool := page self >? 1.

Definition prev_num (self : t) : option Z :=
  if has_prev self then Some (page self - 1) else None.

Definition has_next (self : t) : bool := page self <? pages self.

Definition next_num (self : t) : option Z :=
  if has_next self then Some (page self + 1) else None.
End Pagination.

(** The largest OFFSET the database driver binds: a signed 64-bit
    integer (sqlite3 raises [OverflowError] above it). *)
Definition OFFSET_MAX : Z := 9223372036854775807.

(** [BaseQuery.paginate(page, per_page, error_out)] of Flask-SQLAlchemy
    2.x, applied to the rows [rows] the query selects, in query order.
    An offset beyond what the driver can bind makes the query fail. *)
Definition paginate (rows : list Post.t) (page per_page : Z)
    (error_out : bool) : App Pagination.t :=
  page <- (if page <? 1
           then (if error_out then raise (Abort 404) else ret 1)
           else ret page) ;;
  per_page <- (if per_page <? 0
               then (if error_out then raise (Abort 404) else ret 20)
               else ret per_page) ;;
  (if OFFSET_MAX <? (page - 1) * per_page
   then raise OverflowError else ret tt) ;;;
  log_query TPost ;;;
  let items :=
    firstn (Z.to_nat per_page)
           (skipn (Z.to_nat ((page - 1) * per_page)) rows) in
  if match items with [] => true | _ => false end
     && negb (page =? 1) && error_out
  then raise (Abort 404)
  else
    total <- (if (page =? 1) && (Z.of_nat (List.length items) <? per_page)
              then ret (Z.of_nat (List.length items))
              else log_query TPost ;;; ret (Z.of_nat (List.length rows))) ;;
    ret (Pagination.mk page per_page total items).

(** ** Requests, URLs and responses *)

Inductive Method : Type := GET | POST.

(** The parts of [flask.request] the views read.  [arg_page] is the
    [page] query parameter after [type=int]: [None] when it is absent or
    does not convert.  [csrf] is the verdict of Flask-WTF's
    [validate_csrf] on the submitted token: [None] when the token is
    valid for the session, the error message otherwise. *)
Record Request : Type := mk_request {
  method : Method;
  path : string;
  query_string : string;
  arg_next : option string;
  arg_page : option Z;
  form_email : string;
  form_password : string;
  csrf : option string
}.

Inductive Endpoint : Type :=
| ep_index
| ep_login
| ep_logout
| ep_account
| ep_archive (month year : Z).

Definition rule (ep : Endpoint) : string :=
  match ep with
  | ep_index => "/"
  | ep_login => "/auth/login/"
  | ep_logout => "/logout/"
  | ep_account => "/account/"
  | ep_archive m y =>
      ("/archive/" ++ string_of_Z m ++ "/" ++ string_of_Z y)%string
  end.

(** [url_for(endpoint, page=...)]; a [page] of [None] adds nothing. *)
Definition url_for (ep : Endpoint) (page : option Z) : string :=
  match page with
  | None => rule ep
  | Some p => (rule ep ++ "?page=" ++ string_of_Z p)%string
  end.

(** Where a redirect points: a URL, and the [next] query parameter that
    Flask-Login attaches to the login URL (kept apart from the URL text
    rather than percent-encoded into it). *)
Record Location : Type := mk_location {
  target : string;
  next_param : option string
}.

Inductive TemplateArgs : Type :=
| IndexArgs (posts : list Post.t) (next_url prev_url : option string)
| LoginArgs (form : LoginForm.t)
| AccountArgs (user : option User.t).

Inductive Response : Type :=
| render_template (name : string) (args : TemplateArgs)
| redirect (location : Location).

Definition View : Type := Request -> App Response.

(** *** Werkzeug's URL quoting *)

Definition in_range (lo hi c : ascii) : bool :=
  (nat_of_ascii lo <=? nat_of_ascii c)%nat
  && (nat_of_ascii c <=? nat_of_ascii hi)%nat.

Fixpoint mem_ascii (c : ascii) (s : string) : bool :=
  match s with
  | EmptyString => false
  | String a s' => Ascii.eqb a c || mem_ascii c s'
  end.

(** The characters [url_quote] never escapes: letters, digits and
    [-._~]. *)
Definition always_safe (c : ascii) : bool :=
  in_range "a" "z" c || in_range "A" "Z" c || in_range "0" "9" c
  || mem_ascii c "-._~".

Definition hex_upper (n : nat) : ascii :=
  match n with
  | 0 => "0" | 1 => "1" | 2 => "2" | 3 => "3" | 4 => "4" | 5 => "5"
  | 6 => "6" | 7 => "7" | 8 => "8" | 9 => "9" | 10 => "A" | 11 => "B"
  | 12 => "C" | 13 => "D" | 14 => "E" | _ => "F"
  end%nat%char.

(** The escape [%XX] of a byte, in upper-case hexadecimal. *)
Definition percent (c : ascii) : string :=
  String "%" (String (hex_upper (nat_of_ascii c / 16))
                (String (hex_upper (nat_of_ascii c mod 16)) EmptyString)).

(** [url_quote(s, safe=safe)]: every byte that is neither always safe
    nor in [safe] is escaped. *)
Fixpoint url_quote (safe : string) (s : string) : string :=
  match s with
  | EmptyString => EmptyString
  | String c s' =>
      if always_safe c || mem_ascii c safe
      then String c (url_quote safe s')
      else (percent c ++ url_quote safe s')%string
  end.

Definition hex_value (c : ascii) : option nat :=
  if in_range "0" "9" c then Some (nat_of_ascii c - 48)%nat
  else if in_range "A" "F" c then Some (nat_of_ascii c - 55)%nat
  else if in_range "a" "f" c then Some (nat_of_ascii c - 87)%nat
  else None.

(** The bytes of [uri_to_iri]: an escape is decoded unless it stands
    for an ASCII character that is not always safe; anything else is
    kept as written.  (The decoding of the result as UTF-8 text is
    outside byte strings.) *)
Fixpoint iri_unquote (s : string) : string :=
  match s with
  | EmptyString => EmptyString
  | String c s' =>
      if Ascii.eqb c "%" then
        match s' with
        | String h1 (String h2 rest) =>
            match hex_value h1, hex_value h2 with
            | Some a, Some b =>
                let v := ascii_of_nat (16 * a + b) in
                if (16 * a + b <? 128)%nat && negb (always_safe v)
                then String c (iri_unquote s')
                else String v (iri_unquote rest)
            | _, _ => String c (iri_unquote s')
            end
        | _ => String c (iri_unquote s')
        end
      else String c (iri_unquote s')
  end.

Fixpoint lstrip_slash (s : string) : string :=
  match s with
  | String "/" s' => lstrip_slash s'
  | _ => s
  end.

(** [request.url] relative to the host, which is what Flask-Login
    carries as [next]: the quoted path, and after [?] the query string
    quoted with the safe set [:&%=+$!*'(),]. *)
Definition request_url (r : Request) : string :=
  let p := ("/" ++ iri_unquote (url_quote "/:" (lstrip_slash (path r))))%string in
  if truthy (query_string r)
  then (p ++ "?"
          ++ iri_unquote (url_quote ":&%=+$!*'()," (query_string r)))%string
  else p.

(** Python's [a or b] for an optional string [a]. *)
Definition or_else (a : option string) (b : string) : string :=
  match a with
  | Some s => if truthy s then s else b
  | None => b
  end.

(** [request.args.get('page', 1, type=int)]. *)
Definition get_page (r : Request) : Z :=
  match arg_page r with
  | Some p => p
  | None => 1
  end.

(** ** Flask-Login *)

(** [current_user]: the user the session's id loads, [None] standing for
    the anonymous user. *)
Definition current_user : App (option User.t) :=
  w <- get_world ;;
  load_user (session_user_id w).

(** [login_user(user)]; handed [None] it fails on [user.is_active]. *)
Definition login_user (user : option User.t) : App unit :=
  match user with
  | Some u => set_session_user_id (Some (User.get_id u))
  | None => raise AttributeError
  end.


Definition login_view : Endpoint := ep_login.

Definition login_message : string := "Please log in to access this page.".

(** [login_url(login_view, next_url)]. *)
Definition login_url (view : Endpoint) (next_url : string) : Location :=
  mk_location (url_for view None) (Some next_url).

(** [LoginManager.unauthorized()] with a [login_view] configured. *)
Definition unauthorized (r : Request) : App Response :=
  flash login_message ;;;
  ret (redirect (login_url login_view (request_url r))).

(** The [@login_required] decorator.  The user is loaded once per
    request; the wrapped view receives it as its [current_user]. *)
Definition login_required (func : option User.t -> View) : View :=
  fun r =>
    u <- current_user ;;
    match u with
    | Some _ => func u r
    | None => unauthorized r
    end.

(** ** Views *)

Definition index : View :=
  fun r =>
    let page := get_page r in
    w <- get_world ;;
    posts <- paginate (order_by_pub_date_desc (posts (db w))) page 10 false ;;
    let next_url :=
      if Pagination.has_next posts
      then Some (url_for ep_index (Pagination.next_num posts)) else None in
    let prev_url :=
      if Pagination.has_prev posts
      then Some (url_for ep_index (Pagination.prev_num posts)) else None in
    ret (render_template "index.html"
           (IndexArgs (Pagination.items posts) next_url prev_url)).

(** [FlaskForm.is_submitted]. *)
Definition is_submitted (r : Request) : bool :=
  match method r with
  | POST => true
  | GET => false
  end.

Definition login : View :=
  fun r =>
    let form := LoginForm.init (form_email r) (form_password r) in
    if is_submitted r then
      res <- LoginForm.validate (csrf r) form ;;
      let (ok, form) := res in
      if ok then
        login_user (LoginForm.user form) ;;;
        flash "Logged in successfully." ;;;
        ret (redirect (mk_location
                         (or_else (arg_next r) (url_for ep_index None)) None))
      else ret (render_template "login.html" (LoginArgs form))
    else ret (render_template "login.html" (LoginArgs form)).


Definition account : View :=
  login_required (fun current_user r =>
    ret (render_template "account.html" (AccountArgs current_user))).

Definition archive (month year : Z) : View :=
  fun r =>
    minimum_month <- lift (datetime_new year month 1) ;;
    maximum_month <- (if month =? 12 then ret minimum_month
                      else lift (datetime_new year (month + 1) 1)) ;;
    let page := get_page r in
    w <- get_world ;;
    posts <- paginate
               (order_by_pub_date_desc
                  (filter (fun p => datetime_le (Post.pub_date p) maximum_month)
                     (filter (fun p => datetime_gt (Post.pub_date p)
                                                   minimum_month)
                        (posts (db w)))))
               page 10 false ;;
    let next_url :=
      if Pagination.has_next posts
      then Some (url_for (ep_archive month year) (Pagination.next_num posts))
      else None in
    let prev_url :=
      if Pagination.has_prev posts
      then Some (url_for (ep_archive month year) (Pagination.prev_num posts))
      else None in
    ret (render_template "index.html"
           (IndexArgs (Pagination.items posts) next_url prev_url)).

(** ** The unit of work and the bootstrap hook *)

Definition db_session_add (x : Pending) : App unit :=
  fun w => Ok (tt, mk_world (db w) (db_session w ++ [x]) (session_user_id w)
                            (flashes w) (query_log w)).

Definition next_id (ids : list Z) : Z := 1 + fold_right Z.max 0 ids.

(** Inserting one pending object; the [email] column is unique. *)
Definition insert (x : Pending) (d : Database) : Result Database :=
  match x with
  | NewUser e p =>
      if existsb (fun u => String.eqb (User.email u) e) (users d)
      then Raise IntegrityError
      else Ok (mk_db (users d ++ [User.mk (next_id (map User.id (users d))) e p])
                     (posts d) (categories d))
  | NewCategory n =>
      Ok (mk_db (users d) (posts d)
                (categories d
                 ++ [Category.mk (next_id (map Category.id (categories d))) n]))
  end.

Fixpoint flush (xs : list Pending) (d : Database) : Result Database :=
  match xs with
  | [] => Ok d
  | x :: xs' =>
      match insert x d with
      | Ok d' => flush xs' d'
      | Raise e => Raise e
      end
  end.

Definition db_session_commit : App unit :=
  fun w =>
    match flush (db_session w) (db w) with
    | Ok d => Ok (tt, mk_world d [] (session_user_id w) (flashes w)
                               (query_log w))
    | Raise e => Raise e
    end.

Definition initialize_data : App unit :=
  user <- User_filter_by_email "blogger@sample.com" ;;
  match user with
  | None =>
      let user := NewUser "blogger@sample.com" "password" in
      let category := NewCategory "All" in
      db_session_add user ;;;
      db_session_commit
  | Some _ => ret tt
  end.

(** ** The route table *)


(** ** The create form and view *)

(** wtforms' [Length(min=...)]: the length of the data, taken as 0 when
    the data is false, must reach [min]; otherwise the message returned
    here is added to the field's errors. *)
Definition Length (min : Z) (f : Field) : option string :=
  let l := if truthy (data f) then Z.of_nat (String.length (data f))
           else 0 in
  if min <=? l then None
  else if min =? 1
       then Some ("Field must be at least "
                    ++ string_of_Z min ++ " character long.")%string
       else Some ("Field must be at least "
                    ++ string_of_Z min ++ " characters long.")%string.

(** [Field.validate] for a field whose validator chain is
    [[Length(min=10)]]. *)
Definition Field_validate_length (f : Field) : Field :=
  match Length 10 f with
  | None => mk_field (data f) []
  | Some msg => mk_field (data f) [msg]
  end.

Module CreateForm.
Record t : Type := mk {
  title : Field;
  body : Field;
  csrf_token_errors : list string
}.

Definition init (title_data body_data : string) : t :=
  mk (mk_field title_data []) (mk_field body_data []) [].

Definition FlaskForm_validate (csrf : option string) (self : t) : t * bool :=
  let t' := Field_validate (title self) in
  let b' := Field_validate_length (body self) in
  let c := csrf_validate csrf in
  (mk t' b' c, no_errors t' && no_errors b' && no_csrf_errors c).

Definition validate (csrf : option string) (self : t) : t * bool :=
  let (self, rv) := FlaskForm_validate csrf self in
  if rv then (self, true) else (self, false).
End CreateForm.

(** A request to [/create]: the request proper and the two submitted
    form values. *)
Record CreateRequest : Type := mk_create_request {
  base : Request;
  form_title : string;
  form_body : string
}.

Inductive CreateResponse : Type :=
| render_create (name : string) (form : CreateForm.t)
| redirect_create (location : Location).

(** [Category.query.filter_by(name=n).one_or_none()]. *)
Definition Category_filter_by_name (n : string) : App (option Category.t) :=
  log_query TCategory ;;;
  w <- get_world ;;
  lift (one_or_none
          (filter (fun c => String.eqb (Category.name c) n)
                  (categories (db w)))).

(** A [Post] object before the database gives it an id. *)
Record NewPost : Type := mk_new_post {
  new_title : string;
  new_body : string;
  new_pub_date : datetime;
  new_category : option Category.t
}.

(** [Post.__init__]; [utcnow] is what [datetime.utcnow()] returns. *)
Definition Post_init (title body : string) (category : option Category.t)
    (pub_date : option datetime) (utcnow : datetime) : NewPost :=
  let pub_date :=
    match pub_date with
    | None => utcnow
    | Some d => d
    end in
  mk_new_post title body pub_date category.

Definition insert_post (x : NewPost) (d : Database) : Database :=
  mk_db (users d)
        (posts d
         ++ [Post.mk (next_id (map Post.id (posts d))) (new_title x)
                     (new_body x) (new_pub_date x)
                     (option_map Category.id (new_category x))])
        (categories d).

(** [db.session.add(post)] followed by [db.session.commit()]: what was
    pending is flushed, then the post is inserted. *)
Definition db_session_add_commit_post (x : NewPost) : App unit :=
  fun w =>
    match flush (db_session w) (db w) with
    | Ok d => Ok (tt, mk_world (insert_post x d) [] (session_user_id w)
                               (flashes w) (query_log w))
    | Raise e => Raise e
    end.

Definition create (utcnow : datetime) (r : CreateRequest)
  : App CreateResponse :=
  let form := CreateForm.init (form_title r) (form_body r) in
  if is_submitted (base r) then
    let (form, ok) := CreateForm.validate (csrf (base r)) form in
    if ok then
      category <- Category_filter_by_name "All" ;;
      let post := Post_init (data (CreateForm.title form))
                            (data (CreateForm.body form))
                            category None utcnow in
      db_session_add_commit_post post ;;;
      let form := CreateForm.mk
                    (mk_field "" (errors (CreateForm.title form)))
                    (mk_field "" (errors (CreateForm.body form)))
                    (CreateForm.csrf_token_errors form) in
      flash "Blog Post Successfuly Created" ;;;
      ret (redirect_create (mk_location (url_for ep_index None) None))
    else ret (render_create "create.html" form)
  else ret (render_create "create.html" form).

(** ** Vocabulary of the statements *)

(** [p] may come before [q] in a listing by descending publish time. *)
Definition desc (p q : Post.t) : Prop :=
  datetime_le (Post.pub_date q) (Post.pub_date p) = true.

Definition strictly_desc (p q : Post.t) : Prop :=
  datetime_lt (Post.pub_date q) (Post.pub_date p) = true.

(** The [unique=True] constraint on [User.email]. *)
Definition unique_emails (d : Database) : Prop :=
  NoDup (map User.email (users d)).

(** What [index.html] is rendered with, when the response is that page. *)
Definition listing (resp : Response)
  : option (list Post.t * option string * option string) :=
  match resp with
  | render_template _ (IndexArgs ps n p) => Some (ps, n, p)
  | _ => None
  end.

(** The page [paginate] serves without [error_out], and its rows. *)
Definition clamp (page : Z) : Z := if page <? 1 then 1 else page.

Definition slice (rows : list Post.t) (page : Z) : list Post.t :=
  firstn 10 (skipn (Z.to_nat ((page - 1) * 10)) rows).

Definition page_of (rows : list Post.t) (page : Z) : Pagination.t :=
  Pagination.mk (clamp page) 10 (Z.of_nat (List.length rows))
                (slice rows (clamp page)).

(** The locators a listing view derives from a page. *)
Definition next_locator (ep : Endpoint) (pg : Pagination.t) : option string :=
  if Pagination.has_next pg then Some (url_for ep (Pagination.next_num pg))
  else None.

Definition prev_locator (ep : Endpoint) (pg : Pagination.t) : option string :=
  if Pagination.has_prev pg then Some (url_for ep (Pagination.prev_num pg))
  else None.

(** A world that differs from [w] at most in its query log. *)
Definition same_state (w w' : World) : Prop :=
  db w' = db w /\ db_session w' = db_session w
  /\ session_user_id w' = session_user_id w /\ flashes w' = flashes w.

(** The request [r] asking for page [p]. *)
Definition with_page (r : Request) (p : Z) : Request :=
  mk_request (method r) (path r) (query_string r) (arg_next r) (Some p)
             (form_email r) (form_password r) (csrf r).

(** The requested page is one the database can be asked for: its
    offset is within [OFFSET_MAX]. *)
Definition page_in_range (page : Z) : Prop :=
  (clamp page - 1) * 10 <= OFFSET_MAX.

(** A submitted value has a character that is not whitespace. *)
Fixpoint has_nonspace (s : string) : bool :=
  match s with
  | EmptyString => false
  | String c s' => negb (isspace c) || has_nonspace s'
  end.

(** What a caller of [validate] observes: the verdict, the errors of
    the email, password and CSRF-token fields, and the bound user. *)
Definition outcome (res : bool * LoginForm.t)
  : bool * list string * list string * list string * option User.t :=
  (fst res, errors (LoginForm.email (snd res)),
   errors (LoginForm.password (snd res)),
   LoginForm.csrf_token_errors (snd res), LoginForm.user (snd res)).

(** Sample data for the examples. *)
Definition world_of (d : Database) : World := mk_world d [] None [] [].

Definition alice : User.t := User.mk 1 "alice@sample.com" "secret".

Definition get_request (p : string) (page : option Z) : Request :=
  mk_request GET p "" None page "" "" None.

Definition post_at (i : Z) (d : datetime) : Post.t :=
  Post.mk i "title" "a body of text" d (Some 1).

(** [items] are the most recently published posts of [store], most
    recent first: a descending prefix of a rearrangement of the store
    whose other posts are no more recent than any of [items]. *)
Definition most_recent_first (store items : list Post.t) : Prop :=
  StronglySorted desc items
  /\ exists rest,
       Permutation store (items ++ rest)
       /\ forall x y, In x items -> In y rest -> desc x y.

(** [n] posts published on consecutive days, oldest first. *)
Definition sample_posts (n : nat) : list Post.t :=
  map (fun i => post_at (Z.of_nat i)
                        (mk_datetime 2024 1 (Z.of_nat i) 0 0 0 0))
      (seq 1 n).

Definition world_of_posts (ps : list Post.t) : World :=
  world_of (mk_db [] ps []).

(** Two posts published at the same instant. *)
Definition tied_posts : list Post.t :=
  [post_at 1 (mk_datetime 2024 1 1 0 0 0 0);
   post_at 2 (mk_datetime 2024 1 1 0 0 0 0)].

(** The number of the last page of a listing of [n] posts. *)
Definition last_page (n : nat) : Z := - ((- Z.of_nat n) / 10).

(** The rows the archive query selects between [lo] and [hi]. *)
Definition archive_rows (lo hi : datetime) (store : list Post.t)
  : list Post.t :=
  order_by_pub_date_desc
    (filter (fun p => datetime_le (Post.pub_date p) hi)
       (filter (fun p => datetime_gt (Post.pub_date p) lo) store)).

(** Midnight on the first day of a month. *)
Definition first_of_month (y m : Z) : datetime := mk_datetime y m 1 0 0 0 0.

(** The world [w] after one more query on table [t]. *)
Definition logged (w : World) (t : Table) : World :=
  mk_world (db w) (db_session w) (session_user_id w) (flashes w)
           (query_log w ++ [t]).

(** The form [validate] leaves behind when the credentials are
    accepted for [u], and when they are rejected. *)
Definition accepted (e p : string) (u : User.t) : LoginForm.t :=
  LoginForm.mk (mk_field e []) (mk_field p []) [] (Some u).

Definition rejected (e p : string) : LoginForm.t :=
  LoginForm.mk (mk_field e [])
               (mk_field p [LoginForm.invalid_credentials]) [] None.


(** The user the bootstrap hook creates, under the id the table gives. *)
Definition blogger (i : Z) : User.t :=
  User.mk i "blogger@sample.com" "password".

(** Primary keys are unique and positive, as auto-increment makes them. *)
Definition unique_ids (d : Database) : Prop :=
  NoDup (map User.id (users d))
  /\ forall u, In u (users d) -> 0 < User.id u.

(** The posts [index] shows for page [page]. *)
Definition index_items (r : Request) (w : World) (page : Z) : list Post.t :=
  match index (with_page r page) w with
  | Ok (resp, _) =>
      match listing resp with
      | Some (ps, _, _) => ps
      | None => []
      end
  | Raise _ => []
  end.

(** The page numbers 1 .. last page of a listing of [n] posts. *)
Definition page_numbers (n : nat) : list Z :=
  map (fun i => Z.of_nat i + 1) (seq 0 (Z.to_nat (last_page n))).

(** A request to [/create] submitting [t] and [b]. *)
Definition post_create (t b : string) : CreateRequest :=
  mk_create_request (mk_request POST "/create" "" None None "" "" None) t b.

(** A login submission of [e] and [p] with a valid CSRF token and the
    given [next] parameter. *)
Definition post_login (e p : string) (next : option string) : Request :=
  mk_request POST "/auth/login/" "" next None e p None.

(** The emails of the users waiting in the unit of work. *)
Fixpoint pending_emails (xs : list Pending) : list string :=
  match xs with
  | [] => []
  | NewUser e _ :: xs' => e :: pending_emails xs'
  | NewCategory _ :: xs' => pending_emails xs'
  end.

(** * Properties *)

(** ** Order on timestamps *)

Lemma lex_compare_refl (a : list Z) : lex_compare a a = Eq.
Proof.
  induction a as [|x a IH]; simpl; [reflexivity|].
  now rewrite Z.compare_refl.
Qed.

Lemma lex_compare_antisym (a b : list Z) :
  lex_compare b a = CompOpp (lex_compare a b).
Proof.
  revert b; induction a as [|x a IH]; intros [|y b]; simpl; try reflexivity.
  rewrite (Z.compare_antisym x y).
  destruct (x ?= y); simpl; auto.
Qed.

Lemma lex_compare_le_trans (a b c : list Z) :
  lex_compare a b <> Gt -> lex_compare b c <> Gt -> lex_compare a c <> Gt.
Proof.
  revert b c; induction a as [|x a IH]; intros [|y b] [|z c]; simpl;
    try congruence.
  destruct (Z.compare_spec x y), (Z.compare_spec y z), (Z.compare_spec x z);
    try congruence; try lia; subst; eauto.
Qed.

Lemma datetime_gt_le (a b : datetime) :
  datetime_gt a b = negb (datetime_le a b).
Proof. unfold datetime_gt, datetime_le. now destruct (datetime_compare a b). Qed.

Lemma datetime_lt_le (a b : datetime) :
  datetime_lt a b = negb (datetime_le b a).
Proof.
  unfold datetime_lt, datetime_le, datetime_compare.
  rewrite (lex_compare_antisym (fields a) (fields b)).
  now destruct (lex_compare (fields a) (fields b)).
Qed.

Lemma datetime_le_refl (a : datetime) : datetime_le a a = true.
Proof.
  unfold datetime_le, datetime_compare. now rewrite lex_compare_refl.
Qed.

Lemma datetime_gt_irrefl (a : datetime) : datetime_gt a a = false.
Proof. now rewrite datetime_gt_le, datetime_le_refl. Qed.

Lemma datetime_le_trans (a b c : datetime) :
  datetime_le a b = true -> datetime_le b c = true -> datetime_le a c = true.
Proof.
  unfold datetime_le, datetime_compare. intros Hab Hbc.
  pose proof (lex_compare_le_trans (fields a) (fields b) (fields c)) as H.
  destruct (lex_compare (fields a) (fields b)),
           (lex_compare (fields b) (fields c)),
           (lex_compare (fields a) (fields c));
    try reflexivity; try discriminate; exfalso; apply H; congruence.
Qed.

Lemma datetime_le_total (a b : datetime) :
  datetime_le a b = true \/ datetime_le b a = true.
Proof.
  unfold datetime_le, datetime_compare.
  rewrite (lex_compare_antisym (fields a) (fields b)).
  destruct (lex_compare (fields a) (fields b)); simpl; auto.
Qed.

Lemma lex_compare_eq (a b : list Z) : lex_compare a b = Eq -> a = b.
Proof.
  revert b; induction a as [|x a IH]; intros [|y b]; simpl; try congruence.
  destruct (Z.compare_spec x y) as [Hxy| |]; try congruence.
  intros Hab; subst; f_equal; auto.
Qed.

Lemma datetime_compare_eq (a b : datetime) :
  datetime_compare a b = Eq -> a = b.
Proof.
  unfold datetime_compare. intros H. apply lex_compare_eq in H.
  destruct a, b; unfold fields in H; simpl in H.
  now inversion H.
Qed.

Lemma desc_trans (p q r : Post.t) : desc p q -> desc q r -> desc p r.
Proof. unfold desc; intros; eapply datetime_le_trans; eauto. Qed.

(** ** Ordering of posts *)

Lemma insert_desc_perm (p : Post.t) (l : list Post.t) :
  Permutation (insert_desc p l) (p :: l).
Proof.
  induction l as [|q l IH]; simpl; [reflexivity|].
  destruct (datetime_le (Post.pub_date q) (Post.pub_date p)); [reflexivity|].
  rewrite IH. apply perm_swap.
Qed.

Lemma order_by_perm (l : list Post.t) :
  Permutation (order_by_pub_date_desc l) l.
Proof.
  induction l as [|p l IH]; simpl; [reflexivity|].
  rewrite insert_desc_perm. now constructor.
Qed.

Lemma order_by_length (l : list Post.t) :
  List.length (order_by_pub_date_desc l) = List.length l.
Proof. apply Permutation_length, order_by_perm. Qed.

Lemma insert_desc_sorted (p : Post.t) (l : list Post.t) :
  StronglySorted desc l -> StronglySorted desc (insert_desc p l).
Proof.
  induction 1 as [|q l Hl IH Hq]; simpl.
  - repeat constructor.
  - destruct (datetime_le (Post.pub_date q) (Post.pub_date p)) eqn:E.
    + constructor; [now constructor|].
      constructor; [exact E|].
      rewrite Forall_forall in *. intros x Hx.
      eapply desc_trans; [exact E | auto].
    + constructor; [exact IH|].
      rewrite Forall_forall in *. intros x Hx.
      apply (Permutation_in _ (insert_desc_perm p l)) in Hx.
      destruct Hx as [<-|Hx]; [|auto].
      unfold desc. destruct (datetime_le_total (Post.pub_date p) (Post.pub_date q));
        congruence.
Qed.

Lemma order_by_sorted (l : list Post.t) :
  StronglySorted desc (order_by_pub_date_desc l).
Proof.
  induction l as [|p l IH]; simpl; [constructor|].
  now apply insert_desc_sorted.
Qed.

Lemma firstn_In {A : Type} (n : nat) (l : list A) (x : A) :
  In x (firstn n l) -> In x l.
Proof.
  intros H. rewrite <- (firstn_skipn n l). apply in_or_app; auto.
Qed.

Lemma skipn_In {A : Type} (n : nat) (l : list A) (x : A) :
  In x (skipn n l) -> In x l.
Proof.
  intros H. rewrite <- (firstn_skipn n l). apply in_or_app; auto.
Qed.

Lemma sorted_firstn {A : Type} (R : A -> A -> Prop) (n : nat) (l : list A) :
  StronglySorted R l -> StronglySorted R (firstn n l).
Proof.
  revert n; induction l as [|x l IH]; intros [|n] H; simpl; try constructor.
  - inversion H; subst; auto.
  - inversion H as [|? ? ? Hall]; subst.
    rewrite Forall_forall in *. intros y Hy.
    apply Hall. eapply firstn_In; eauto.
Qed.

Lemma sorted_skipn {A : Type} (R : A -> A -> Prop) (n : nat) (l : list A) :
  StronglySorted R l -> StronglySorted R (skipn n l).
Proof.
  revert n; induction l as [|x l IH]; intros [|n] H; simpl; auto.
  inversion H; subst; auto.
Qed.

Lemma sorted_app_inv {A : Type} (R : A -> A -> Prop) (l1 l2 : list A) :
  StronglySorted R (l1 ++ l2) ->
  forall x y, In x l1 -> In y l2 -> R x y.
Proof.
  induction l1 as [|a l1 IH]; simpl; intros H x y Hx Hy; [contradiction|].
  inversion H as [|? ? Hs Hall]; subst.
  destruct Hx as [<-|Hx].
  - rewrite Forall_forall in Hall. apply Hall, in_or_app; auto.
  - eauto.
Qed.

(** With pairwise distinct timestamps a descending list is strictly so. *)
Lemma sorted_strictly (l : list Post.t) :
  NoDup (map Post.pub_date l) ->
  StronglySorted desc l -> StronglySorted strictly_desc l.
Proof.
  induction l as [|p l IH]; simpl; intros Hnd Hs; [constructor|].
  inversion Hnd as [|? ? Hnotin Hnd']; subst.
  inversion Hs as [|? ? Hs' Hall]; subst.
  constructor; [auto|].
  rewrite Forall_forall in *. intros q Hq.
  specialize (Hall q Hq). unfold desc, strictly_desc in *.
  rewrite datetime_lt_le.
  unfold datetime_le in *.
  destruct (datetime_compare (Post.pub_date p) (Post.pub_date q)) eqn:E;
    try reflexivity.
  - apply datetime_compare_eq in E. exfalso. apply Hnotin.
    rewrite E. now apply in_map.
  - unfold datetime_compare in *.
    rewrite (lex_compare_antisym (fields (Post.pub_date p))) in Hall.
    rewrite E in Hall. discriminate.
Qed.

(** ** Pagination *)

Lemma total_eq (rows : list Post.t) (page : Z) :
  (if (page =? 1) && (Z.of_nat (List.length (slice rows page)) <? 10)
   then Z.of_nat (List.length (slice rows page))
   else Z.of_nat (List.length rows)) = Z.of_nat (List.length rows).
Proof.
  destruct ((page =? 1) && _) eqn:Hl; [|reflexivity].
  apply andb_prop in Hl. destruct Hl as [H1 Hl].
  apply Z.eqb_eq in H1. subst page.
  unfold slice in *. change (Z.to_nat ((1 - 1) * 10)) with 0%nat in *.
  cbn [skipn] in *.
  apply Z.ltb_lt in Hl. rewrite length_firstn in Hl.
  rewrite firstn_all2 by lia. reflexivity.
Qed.

Lemma paginate_total (rows : list Post.t) (page : Z) (w : World) :
  page_in_range page ->
  exists w',
    paginate rows page 10 false w = Ok (page_of rows page, w')
    /\ same_state w w'.
Proof.
  intros Hr.
  pose proof (total_eq rows (clamp page)) as Ht.
  unfold paginate, bind, page_of, same_state.
  fold (clamp page).
  replace ((if page <? 1 then if false then raise (Abort 404) else ret 1 else ret page) w)
    with (Ok (clamp page, w) : Result (Z * World))
    by (unfold clamp; now destruct (page <? 1)).
  change (10 <? 0) with false. cbn [ret log_query].
  replace (OFFSET_MAX <? (clamp page - 1) * 10) with false
    by (symmetry; apply Z.ltb_ge; exact Hr).
  cbn [ret].
  change (Z.to_nat 10) with 10%nat.
  fold (slice rows (clamp page)).
  rewrite andb_false_r.
  destruct ((clamp page =? 1) && _) eqn:Hl.
  - eexists. split; [rewrite Ht; reflexivity|]. cbn. auto.
  - eexists. split; [reflexivity|]. cbn. auto.
Qed.

Lemma paginate_overflow (rows : list Post.t) (page : Z) (w : World) :
  ~ page_in_range page ->
  paginate rows page 10 false w = Raise OverflowError.
Proof.
  intros Hr. unfold paginate, bind. fold (clamp page).
  replace ((if page <? 1 then if false then raise (Abort 404) else ret 1 else ret page) w)
    with (Ok (clamp page, w) : Result (Z * World))
    by (unfold clamp; now destruct (page <? 1)).
  change (10 <? 0) with false. cbn [ret].
  replace (OFFSET_MAX <? (clamp page - 1) * 10) with true
    by (symmetry; apply Z.ltb_lt; unfold page_in_range in Hr; lia).
  reflexivity.
Qed.

Lemma pages_page_of (rows : list Post.t) (page : Z) :
  Pagination.pages (page_of rows page)
  = - ((- Z.of_nat (List.length rows)) / 10).
Proof. reflexivity. Qed.

Lemma pages_bound (n : Z) : n <= 10 * - ((- n) / 10) < n + 10.
Proof.
  pose proof (Z.div_mod (- n) 10 ltac:(lia)).
  pose proof (Z.mod_pos_bound (- n) 10 ltac:(lia)).
  lia.
Qed.

Lemma clamp_ge_1 (page : Z) : 1 <= clamp page.
Proof. unfold clamp. destruct (Z.ltb_spec page 1); lia. Qed.

Lemma clamp_id (page : Z) : 1 <= page -> clamp page = page.
Proof. unfold clamp. destruct (Z.ltb_spec page 1); lia. Qed.

Lemma clamp_low (page : Z) : page <= 0 -> clamp page = 1.
Proof. unfold clamp. destruct (Z.ltb_spec page 1); lia. Qed.

(** Past the last page there is nothing to show. *)
Lemma slice_beyond (rows : list Post.t) (page : Z) :
  Pagination.pages (page_of rows page) < page -> slice rows page = [].
Proof.
  rewrite pages_page_of. intros H.
  pose proof (pages_bound (Z.of_nat (List.length rows))).
  unfold slice. rewrite skipn_all2 by lia. apply firstn_nil.
Qed.

(** Every row is on some page, whose offset is below the number of
    rows. *)
Lemma slice_covers (rows : list Post.t) (p : Post.t) :
  In p rows ->
  exists page,
    1 <= page
    /\ (page - 1) * 10 < Z.of_nat (List.length rows)
    /\ In p (slice rows page).
Proof.
  intros Hin. apply In_nth_error in Hin. destruct Hin as [i Hi].
  assert (Hlt : (i < List.length rows)%nat)
    by (apply nth_error_Some; congruence).
  pose proof (Nat.mod_upper_bound i 10 ltac:(lia)) as Hm.
  pose proof (Nat.div_mod_eq i 10) as Hd.
  exists (Z.of_nat (i / 10) + 1). split; [lia|]. split; [lia|].
  unfold slice.
  replace (Z.to_nat ((Z.of_nat (i / 10) + 1 - 1) * 10))
    with (10 * (i / 10))%nat by lia.
  apply (nth_error_In _ (i mod 10)).
  rewrite nth_error_firstn.
  destruct (Nat.ltb_spec (i mod 10) 10); [|lia].
  rewrite nth_error_skipn.
  now rewrite <- Nat.div_mod_eq.
Qed.

Lemma page_in_range_small (page : Z) :
  page <= 922337203685477581 -> page_in_range page.
Proof.
  intros H. unfold page_in_range, clamp, OFFSET_MAX.
  destruct (Z.ltb_spec page 1); lia.
Qed.

Lemma page_in_range_clamp (page : Z) :
  page_in_range page <-> page_in_range (clamp page).
Proof.
  unfold page_in_range, clamp.
  destruct (Z.ltb_spec page 1) as [H|H]; [reflexivity|].
  destruct (Z.ltb_spec page 1); [lia | reflexivity].
Qed.

(** ** The listing views *)

Lemma index_eq (r : Request) (w : World) :
  page_in_range (get_page r) ->
  let pg := page_of (order_by_pub_date_desc (posts (db w))) (get_page r) in
  exists w',
    paginate (order_by_pub_date_desc (posts (db w))) (get_page r) 10 false w
    = Ok (pg, w')
    /\ index r w
       = Ok (render_template "index.html"
               (IndexArgs (Pagination.items pg) (next_locator ep_index pg)
                          (prev_locator ep_index pg)), w')
    /\ same_state w w'.
Proof.
  intros Hr pg.
  destruct (paginate_total (order_by_pub_date_desc (posts (db w)))
                           (get_page r) w Hr) as (w' & Hp & Hs).
  exists w'. split; [exact Hp|]. split; [|exact Hs].
  unfold index, bind, get_world. rewrite Hp. reflexivity.
Qed.

Lemma next_locator_none (ep : Endpoint) (pg : Pagination.t) :
  next_locator ep pg = None <-> Pagination.has_next pg = false.
Proof.
  unfold next_locator. destruct (Pagination.has_next pg); split; congruence.
Qed.

Lemma prev_locator_none (ep : Endpoint) (pg : Pagination.t) :
  prev_locator ep pg = None <-> Pagination.has_prev pg = false.
Proof.
  unfold prev_locator. destruct (Pagination.has_prev pg); split; congruence.
Qed.

Lemma first_slice_most_recent (store : list Post.t) :
  most_recent_first store (slice (order_by_pub_date_desc store) 1).
Proof.
  unfold slice. change (Z.to_nat ((1 - 1) * 10)) with 0%nat. cbn [skipn].
  pose proof (order_by_sorted store) as Hs.
  split; [now apply sorted_firstn|].
  exists (skipn 10 (order_by_pub_date_desc store)). split.
  - rewrite firstn_skipn. symmetry. apply order_by_perm.
  - apply sorted_app_inv. now rewrite firstn_skipn.
Qed.

(** ** The index listing *)

(** C4, as the code has it.  The index listing with page 1 returns the
    first min(10, n) posts by descending publish time: they come in
    non-increasing timestamp order, each is at least as recent as every
    post left out, and the order is strictly descending when the
    timestamps of the store are pairwise distinct.  For a store of
    exactly 25 posts, pages 1, 2 and 3 together are a rearrangement of
    the store, page 3 holds the remaining 5 posts and has no next page.
    On every page the database can be asked for (its offset is within
    the range of the driver), the listing is returned and the next and
    previous locators are [None] exactly when [has_next] and [has_prev]
    are false. *)
Theorem index_pages (w w25 : World) (r r1 r3 : Request) :
  get_page r1 = 1 ->
  get_page r3 = 3 ->
  List.length (posts (db w25)) = 25%nat ->
  page_in_range (get_page r) ->
  (exists items next prev w',
      index r1 w
      = Ok (render_template "index.html" (IndexArgs items next prev), w')
      /\ List.length items = Nat.min 10 (List.length (posts (db w)))
      /\ most_recent_first (posts (db w)) items
      /\ (NoDup (map Post.pub_date (posts (db w))) ->
          StronglySorted strictly_desc items))
  /\ (exists items1 items2 items3 n1 p1 n2 p2 p3 w1 w2 w3 pg w0,
      index (with_page r3 1) w25
      = Ok (render_template "index.html" (IndexArgs items1 n1 p1), w1)
      /\ index (with_page r3 2) w25
         = Ok (render_template "index.html" (IndexArgs items2 n2 p2), w2)
      /\ index r3 w25
         = Ok (render_template "index.html" (IndexArgs items3 None p3), w3)
      /\ Permutation (posts (db w25)) (items1 ++ items2 ++ items3)
      /\ List.length items3 = 5%nat
      /\ paginate (order_by_pub_date_desc (posts (db w25))) 3 10 false w25
         = Ok (pg, w0)
      /\ Pagination.items pg = items3
      /\ Pagination.has_next pg = false)
  /\ (exists pg next prev w0 w',
      paginate (order_by_pub_date_desc (posts (db w))) (get_page r) 10 false w
      = Ok (pg, w0)
      /\ index r w
         = Ok (render_template "index.html"
                 (IndexArgs (Pagination.items pg) next prev), w')
      /\ (next = None <-> Pagination.has_next pg = false)
      /\ (prev = None <-> Pagination.has_prev pg = false)).
Proof.
  intros H1 H3 H25 Hr. split; [|split].
  - destruct (index_eq r1 w) as (w' & _ & Hi & _);
      [rewrite H1; now apply page_in_range_small|].
    rewrite H1 in Hi.
    cbn [Pagination.items page_of] in Hi.
    change (clamp 1) with 1 in Hi.
    do 4 eexists. split; [exact Hi|].
    pose proof (first_slice_most_recent (posts (db w))) as Hm.
    split; [|split; [exact Hm|]].
    + unfold slice. change (Z.to_nat ((1 - 1) * 10)) with 0%nat.
      cbn [skipn]. now rewrite length_firstn, order_by_length.
    + intros Hnd. unfold slice. change (Z.to_nat ((1 - 1) * 10)) with 0%nat.
      cbn [skipn]. apply sorted_firstn, sorted_strictly.
      * eapply Permutation_NoDup; [|exact Hnd].
        apply Permutation_map. symmetry. apply order_by_perm.
      * apply order_by_sorted.
  - set (rows := order_by_pub_date_desc (posts (db w25))).
    assert (Hlen : List.length rows = 25%nat)
      by (unfold rows; now rewrite order_by_length).
    destruct (index_eq (with_page r3 1) w25) as (w1 & _ & Hi1 & _);
      [now apply page_in_range_small|].
    destruct (index_eq (with_page r3 2) w25) as (w2 & _ & Hi2 & _);
      [now apply page_in_range_small|].
    destruct (index_eq r3 w25) as (w3 & Hp3 & Hi3 & _);
      [rewrite H3; now apply page_in_range_small|].
    rewrite H3 in Hi3, Hp3. fold rows in Hi1, Hi2, Hi3, Hp3.
    assert (Hn : Pagination.has_next (page_of rows 3) = false).
    { unfold Pagination.has_next. rewrite pages_page_of, Hlen. reflexivity. }
    assert (Hnl : next_locator ep_index (page_of rows 3) = None)
      by now apply next_locator_none.
    rewrite Hnl in Hi3.
    do 13 eexists.
    split; [exact Hi1|]. split; [exact Hi2|]. split; [exact Hi3|].
    cbn [Pagination.items page_of with_page get_page arg_page].
    change (clamp 1) with 1. change (clamp 2) with 2. change (clamp 3) with 3.
    unfold slice.
    change (Z.to_nat ((1 - 1) * 10)) with 0%nat.
    change (Z.to_nat ((2 - 1) * 10)) with 10%nat.
    change (Z.to_nat ((3 - 1) * 10)) with 20%nat.
    change (skipn 0 rows) with rows.
    assert (H20 : firstn 10 (skipn 20 rows) = skipn 20 rows).
    { apply firstn_all2. rewrite length_skipn. lia. }
    split; [|split; [|split; [exact Hp3|split; [reflexivity|exact Hn]]]].
    + rewrite H20.
      replace (skipn 20 rows) with (skipn 10 (skipn 10 rows))
        by (rewrite skipn_skipn; reflexivity).
      rewrite (firstn_skipn 10 (skipn 10 rows)), firstn_skipn.
      symmetry. apply order_by_perm.
    + rewrite H20, length_skipn. lia.
  - destruct (index_eq r w Hr) as (w' & Hp & Hi & _).
    do 5 eexists. split; [exact Hp|]. split; [exact Hi|].
    split; [apply next_locator_none | apply prev_locator_none].
Qed.

Lemma index_pages_witness :
  exists items p3 w3,
    index (get_request "/" (Some 3)) (world_of_posts (sample_posts 25))
    = Ok (render_template "index.html" (IndexArgs items None p3), w3)
    /\ List.length items = 5%nat.
Proof.
  destruct (index_pages (world_of_posts (sample_posts 3))
                        (world_of_posts (sample_posts 25))
                        (get_request "/" None)
                        (get_request "/" (Some 1))
                        (get_request "/" (Some 3))
                        eq_refl eq_refl eq_refl
                        ltac:(now apply page_in_range_small))
    as (_ & (i1 & i2 & i3 & n1 & p1 & n2 & p2 & p3 & w1 & w2 & w3 & pg & w0
             & _ & _ & H3 & _ & H5 & _) & _).
  exists i3, p3, w3. split; [exact H3 | exact H5].
Defined.

(** C4 as stated fails: two posts published at the same instant are
    both on page 1, which is then neither ten posts long nor strictly
    descending. *)
Lemma index_ties_not_strictly_descending :
  exists w',
    index (get_request "/" (Some 1)) (world_of_posts tied_posts)
    = Ok (render_template "index.html" (IndexArgs tied_posts None None), w')
    /\ ~ StronglySorted strictly_desc tied_posts
    /\ List.length tied_posts <> 10%nat.
Proof.
  eexists. split; [vm_compute; reflexivity|]. split; [|discriminate].
  intros H. inversion H as [|? ? _ Hall]; subst.
  inversion Hall as [|? ? Hlt _]; subst.
  discriminate Hlt.
Qed.

(** ** Page numbers out of range *)

Lemma paginate_clamp (rows : list Post.t) (page : Z) (w : World) :
  paginate rows page 10 false w = paginate rows (clamp page) 10 false w.
Proof.
  unfold clamp. destruct (page <? 1) eqn:Hp; [|reflexivity].
  unfold paginate, bind. rewrite Hp. reflexivity.
Qed.

Lemma index_clamp (r r' : Request) (w : World) :
  clamp (get_page r) = clamp (get_page r') -> index r w = index r' w.
Proof.
  intros H. unfold index, bind, get_world.
  rewrite (paginate_clamp _ (get_page r)), (paginate_clamp _ (get_page r')), H.
  reflexivity.
Qed.

(** C8, as the code has it.  For a page number beyond the last page
    that the database can still be asked for (its offset is within the
    range of the driver), the index listing does not fail and returns
    no items, [has_next] is false and [has_prev] is computed as usual
    (page > 1).  A page number of 0 or less is served as page 1: the
    listing does not fail and the response is the one for page 1, with
    the first min(10, n) posts. *)
Theorem index_page_out_of_range (w : World) (r_hi r_lo r1 : Request) :
  last_page (List.length (posts (db w))) < get_page r_hi ->
  page_in_range (get_page r_hi) ->
  get_page r_lo <= 0 ->
  get_page r1 = 1 ->
  (exists pg prev w0 w',
      paginate (order_by_pub_date_desc (posts (db w))) (get_page r_hi)
               10 false w = Ok (pg, w0)
      /\ index r_hi w
         = Ok (render_template "index.html" (IndexArgs [] None prev), w')
      /\ Pagination.items pg = []
      /\ Pagination.has_next pg = false
      /\ Pagination.has_prev pg = (get_page r_hi >? 1)
      /\ (prev = None <-> Pagination.has_prev pg = false))
  /\ (exists items next w',
      index r_lo w
      = Ok (render_template "index.html" (IndexArgs items next None), w')
      /\ index r_lo w = index r1 w
      /\ items = firstn 10 (order_by_pub_date_desc (posts (db w)))).
Proof.
  intros Hhi Hr Hlo H1. split.
  - destruct (index_eq r_hi w Hr) as (w' & Hp & Hi & _).
    set (rows := order_by_pub_date_desc (posts (db w))) in *.
    assert (Hpos : 0 <= last_page (List.length (posts (db w)))).
    { unfold last_page.
      pose proof (pages_bound (Z.of_nat (List.length (posts (db w))))). lia. }
    assert (Hc : clamp (get_page r_hi) = get_page r_hi)
      by (apply clamp_id; lia).
    assert (Hs : Pagination.items (page_of rows (get_page r_hi)) = []).
    { cbn [Pagination.items page_of]. rewrite Hc. apply slice_beyond.
      rewrite pages_page_of. unfold rows. rewrite order_by_length.
      exact Hhi. }
    assert (Hn : Pagination.has_next (page_of rows (get_page r_hi)) = false).
    { unfold Pagination.has_next. rewrite pages_page_of.
      unfold rows. rewrite order_by_length.
      cbn [Pagination.page page_of]. rewrite Hc.
      apply Z.ltb_ge. unfold last_page in Hhi. lia. }
    rewrite Hs in Hi.
    rewrite (proj2 (next_locator_none ep_index _) Hn) in Hi.
    do 4 eexists. split; [exact Hp|]. split; [exact Hi|].
    split; [exact Hs|]. split; [exact Hn|]. split.
    + unfold Pagination.has_prev. cbn [Pagination.page page_of].
      now rewrite Hc.
    + apply prev_locator_none.
  - assert (Hc : clamp (get_page r_lo) = clamp (get_page r1))
      by (rewrite H1; now apply clamp_low).
    rewrite (index_clamp r_lo r1 w Hc).
    destruct (index_eq r1 w) as (w' & _ & Hi & _);
      [rewrite H1; now apply page_in_range_small|].
    rewrite H1 in Hi.
    do 3 eexists. split; [exact Hi|]. split; reflexivity.
Qed.

Lemma index_page_out_of_range_witness :
  exists w',
    index (get_request "/" (Some 4)) (world_of_posts (sample_posts 25))
    = Ok (render_template "index.html"
            (IndexArgs [] None (Some "/?page=3")), w')
    /\ index (get_request "/" (Some (-2))) (world_of_posts (sample_posts 25))
       = index (get_request "/" (Some 1)) (world_of_posts (sample_posts 25)).
Proof.
  destruct (index_page_out_of_range
              (world_of_posts (sample_posts 25))
              (get_request "/" (Some 4))
              (get_request "/" (Some (-2)))
              (get_request "/" (Some 1))
              ltac:(vm_compute; reflexivity)
              ltac:(now apply page_in_range_small)
              ltac:(vm_compute; discriminate)
              eq_refl)
    as ((pg & prev & w0 & w' & _ & Hi & _) & (items & next & w'' & _ & He & _)).
  exists w'. split; [|exact He].
  rewrite Hi. vm_compute in Hi. injection Hi as Hprev.
  rewrite Hprev. reflexivity.
Defined.

(** C8 as stated fails: asked for page 0 of a store with one post, the
    listing is the one of page 1 and shows that post. *)
Lemma index_page_zero_not_empty :
  exists w',
    index (get_request "/" (Some 0)) (world_of_posts (sample_posts 1))
    = Ok (render_template "index.html"
            (IndexArgs (sample_posts 1) None None), w')
    /\ sample_posts 1 <> [].
Proof. eexists. split; [vm_compute; reflexivity | discriminate]. Qed.

(** ** The archive *)

Lemma fits_int_iff (z : Z) :
  fits_int z = true <-> INT_MIN <= z <= INT_MAX.
Proof. unfold fits_int. rewrite andb_true_iff, !Z.leb_le. tauto. Qed.

Lemma datetime_new_first (y m : Z) :
  1 <= y <= 9999 -> 1 <= m <= 12 ->
  datetime_new y m 1 = Ok (first_of_month y m).
Proof.
  intros Hy Hm. unfold datetime_new, MINYEAR, MAXYEAR.
  rewrite (proj2 (fits_int_iff y)) by (unfold INT_MIN, INT_MAX; lia).
  rewrite (proj2 (fits_int_iff m)) by (unfold INT_MIN, INT_MAX; lia).
  rewrite (proj2 (fits_int_iff 1)) by (unfold INT_MIN, INT_MAX; lia).
  cbn [andb negb].
  replace (1 <=? y) with true by (symmetry; apply Z.leb_le; lia).
  replace (y <=? 9999) with true by (symmetry; apply Z.leb_le; lia).
  replace (1 <=? m) with true by (symmetry; apply Z.leb_le; lia).
  replace (m <=? 12) with true by (symmetry; apply Z.leb_le; lia).
  replace (1 <=? days_in_month y m) with true; [reflexivity|].
  symmetry. apply Z.leb_le. unfold days_in_month.
  destruct (m =? 2); [destruct (is_leap y); lia|].
  destruct ((m =? 4) || (m =? 6) || (m =? 9) || (m =? 11)); lia.
Qed.

(** An argument outside the C [int] range overflows, whatever the
    other arguments are. *)
Lemma datetime_new_overflow (y m : Z) :
  ~ (INT_MIN <= y <= INT_MAX /\ INT_MIN <= m <= INT_MAX) ->
  datetime_new y m 1 = Raise OverflowError.
Proof.
  intros H. unfold datetime_new.
  replace (fits_int y && fits_int m) with false; [reflexivity|].
  symmetry. apply andb_false_iff.
  destruct (fits_int y) eqn:Ey; [|now left].
  destruct (fits_int m) eqn:Em; [|now right].
  apply fits_int_iff in Ey, Em. tauto.
Qed.

(** Within the C [int] range, a year outside 1..9999 or a month outside
    1..12 is a [ValueError]. *)
Lemma datetime_new_value_error (y m : Z) :
  INT_MIN <= y <= INT_MAX -> INT_MIN <= m <= INT_MAX ->
  ~ (1 <= m <= 12 /\ 1 <= y <= 9999) ->
  exists msg, datetime_new y m 1 = Raise (ValueError msg).
Proof.
  intros Hy Hm Hbad. unfold datetime_new.
  rewrite (proj2 (fits_int_iff y) Hy), (proj2 (fits_int_iff m) Hm).
  rewrite (proj2 (fits_int_iff 1)) by (unfold INT_MIN, INT_MAX; lia).
  cbn [andb negb].
  destruct ((MINYEAR <=? y) && (y <=? MAXYEAR)) eqn:Ey; cbn [negb];
    [|eauto].
  replace ((1 <=? m) && (m <=? 12)) with false; [cbn [negb]; eauto|].
  symmetry. apply andb_false_iff.
  apply andb_prop in Ey. destruct Ey as [Ey1 Ey2].
  apply Z.leb_le in Ey1, Ey2. unfold MINYEAR, MAXYEAR in *.
  destruct (Z.leb_spec 1 m); [right; apply Z.leb_gt; lia | auto].
Qed.

Lemma archive_eq (month year : Z) (r : Request) (w : World)
    (lo hi : datetime) :
  datetime_new year month 1 = Ok lo ->
  (if month =? 12 then Ok lo else datetime_new year (month + 1) 1) = Ok hi ->
  page_in_range (get_page r) ->
  let pg := page_of (archive_rows lo hi (posts (db w))) (get_page r) in
  exists w',
    archive month year r w
    = Ok (render_template "index.html"
            (IndexArgs (Pagination.items pg)
                       (next_locator (ep_archive month year) pg)
                       (prev_locator (ep_archive month year) pg)), w')
    /\ same_state w w'.
Proof.
  intros Hlo Hhi Hr pg.
  destruct (paginate_total (archive_rows lo hi (posts (db w)))
                           (get_page r) w Hr) as (w' & Hp & Hs).
  exists w'. split; [|exact Hs].
  unfold archive, bind, lift, get_world. rewrite Hlo.
  destruct (month =? 12).
  - injection Hhi as <-. cbn [ret]. unfold archive_rows in Hp.
    rewrite Hp. reflexivity.
  - rewrite Hhi. unfold archive_rows in Hp. rewrite Hp. reflexivity.
Qed.

Lemma filter_empty_range (d : datetime) (l : list Post.t) :
  filter (fun p => datetime_le (Post.pub_date p) d)
         (filter (fun p => datetime_gt (Post.pub_date p) d) l) = [].
Proof.
  induction l as [|p l IH]; [reflexivity|]. cbn [filter].
  destruct (datetime_gt (Post.pub_date p) d) eqn:E; [|exact IH].
  cbn [filter]. rewrite datetime_gt_le in E.
  destruct (datetime_le (Post.pub_date p) d); [discriminate | exact IH].
Qed.

Lemma page_of_nil_has_next (page : Z) :
  Pagination.has_next (page_of [] page) = false.
Proof.
  unfold Pagination.has_next. rewrite pages_page_of.
  cbn [Pagination.page page_of]. pose proof (clamp_ge_1 page).
  apply Z.ltb_ge. cbn. lia.
Qed.

Lemma slice_nil (page : Z) : slice [] page = [].
Proof. unfold slice. rewrite skipn_nil. apply firstn_nil. Qed.

(** C2, as the code has it.  For every year from 1 to 9999, every
    store and every page number the database can be asked for (its
    offset is within the range of the driver), the archive listing for
    month 12 has no items and no next page, however many December posts
    are stored: its date range ends where it starts. *)
Theorem archive_december_empty (year : Z) (r : Request) (w : World) :
  1 <= year <= 9999 ->
  page_in_range (get_page r) ->
  exists prev w',
    archive 12 year r w
    = Ok (render_template "index.html" (IndexArgs [] None prev), w')
    /\ same_state w w'.
Proof.
  intros Hy Hr.
  pose proof (datetime_new_first year 12 Hy ltac:(lia)) as Hlo.
  destruct (archive_eq 12 year r w _ _ Hlo eq_refl Hr) as (w' & Ha & Hs).
  unfold archive_rows in Ha. rewrite filter_empty_range in Ha.
  cbn [order_by_pub_date_desc] in Ha.
  rewrite (proj2 (next_locator_none _ _) (page_of_nil_has_next _)) in Ha.
  cbn [Pagination.items page_of] in Ha. rewrite slice_nil in Ha.
  eauto.
Qed.

Lemma archive_december_empty_witness :
  exists prev w',
    archive 12 2024 (get_request "/archive/12/2024" None)
      (world_of_posts [post_at 1 (mk_datetime 2024 12 24 18 30 0 0)])
    = Ok (render_template "index.html" (IndexArgs [] None prev), w').
Proof.
  destruct (archive_december_empty 2024
              (get_request "/archive/12/2024" None)
              (world_of_posts [post_at 1 (mk_datetime 2024 12 24 18 30 0 0)])
              ltac:(lia) ltac:(now apply page_in_range_small))
    as (prev & w' & H & _).
  exists prev, w'. exact H.
Defined.

(** C2 as stated fails: the route accepts year 0, for which no date can
    be built, and the archive raises instead of listing nothing. *)
Lemma archive_december_year_zero_raises :
  archive 12 0 (get_request "/archive/12/0" None)
    (world_of_posts [post_at 1 (mk_datetime 2024 12 24 18 30 0 0)])
  = Raise (ValueError "year 0 is out of range").
Proof. reflexivity. Qed.

Lemma archive_rows_In (lo hi : datetime) (store : list Post.t) (p : Post.t) :
  In p (archive_rows lo hi store)
  <-> In p store
      /\ datetime_gt (Post.pub_date p) lo = true
      /\ datetime_le (Post.pub_date p) hi = true.
Proof.
  unfold archive_rows. split.
  - intros H. apply (Permutation_in _ (order_by_perm _)) in H.
    apply filter_In in H. destruct H as [H Hle].
    apply filter_In in H. tauto.
  - intros (Hin & Hgt & Hle).
    apply (Permutation_in _ (Permutation_sym (order_by_perm _))).
    apply filter_In. split; [|exact Hle].
    apply filter_In. split; assumption.
Qed.

Lemma filter_twice {A : Type} (f g : A -> bool) (l : list A) :
  filter f (filter g l) = filter (fun x => g x && f x) l.
Proof.
  induction l as [|x l IH]; [reflexivity|]. cbn [filter].
  destruct (g x); cbn [filter andb]; [destruct (f x)|]; now rewrite IH.
Qed.

Lemma archive_rows_perm (lo hi : datetime) (store : list Post.t) :
  Permutation (archive_rows lo hi store)
    (filter (fun p => datetime_gt (Post.pub_date p) lo
                      && datetime_le (Post.pub_date p) hi) store).
Proof.
  unfold archive_rows. rewrite order_by_perm. now rewrite filter_twice.
Qed.

(** C5, as the code has it.  For every month from 1 to 11 and every
    year from 1 to 9999, with start the first day of the month at 00:00
    and end the first day of the following month at 00:00, and for a
    post table within the range of the driver: the rows of the archive
    are exactly the stored posts published after start and no later
    than end, most recent first; a page the database can be asked for
    is returned and holds the ten rows (fewer at the end) at the page's
    offset; every such post is listed on some page.  A post published
    exactly at start is on no page; the end instant itself is in the
    range. *)
Theorem archive_month_range (month year : Z) (r : Request) (w : World) :
  1 <= month <= 11 ->
  1 <= year <= 9999 ->
  page_in_range (get_page r) ->
  Z.of_nat (List.length (posts (db w))) <= OFFSET_MAX ->
  let start := first_of_month year month in
  let stop := first_of_month year (month + 1) in
  exists rows,
    Permutation rows
      (filter (fun p => datetime_gt (Post.pub_date p) start
                        && datetime_le (Post.pub_date p) stop)
              (posts (db w)))
    /\ StronglySorted desc rows
    /\ (exists items next prev w',
          archive month year r w
          = Ok (render_template "index.html" (IndexArgs items next prev), w')
          /\ items
             = firstn 10
                 (skipn (Z.to_nat ((clamp (get_page r) - 1) * 10)) rows)
          /\ (List.length items <= 10)%nat
          /\ StronglySorted desc items
          /\ (forall p, In p items ->
                In p (posts (db w))
                /\ datetime_gt (Post.pub_date p) start = true
                /\ datetime_le (Post.pub_date p) stop = true)
          /\ (forall p, In p items -> Post.pub_date p <> start))
    /\ (forall p,
          In p (posts (db w)) ->
          datetime_gt (Post.pub_date p) start = true ->
          datetime_le (Post.pub_date p) stop = true ->
          exists page items next prev w',
            1 <= page
            /\ archive month year (with_page r page) w
               = Ok (render_template "index.html"
                       (IndexArgs items next prev), w')
            /\ In p items)
    /\ datetime_gt stop start = true
    /\ datetime_le stop stop = true.
Proof.
  intros Hm Hy Hr Hsize start stop.
  pose proof (datetime_new_first year month Hy ltac:(lia)) as Hlo.
  pose proof (datetime_new_first year (month + 1) Hy ltac:(lia)) as Hhi.
  assert (H12 : (month =? 12) = false) by (apply Z.eqb_neq; lia).
  assert (Hhi' : (if month =? 12 then Ok start
                  else datetime_new year (month + 1) 1) = Ok stop)
    by now rewrite H12.
  exists (archive_rows start stop (posts (db w))).
  split; [apply archive_rows_perm|].
  split; [unfold archive_rows; apply order_by_sorted|].
  split; [|split; [|split]].
  - destruct (archive_eq month year r w _ _ Hlo Hhi' Hr) as (w' & Ha & _).
    do 4 eexists. split; [exact Ha|].
    cbn [Pagination.items page_of].
    assert (Hin : forall p,
               In p (slice (archive_rows start stop (posts (db w)))
                           (clamp (get_page r))) ->
               In p (posts (db w))
               /\ datetime_gt (Post.pub_date p) start = true
               /\ datetime_le (Post.pub_date p) stop = true).
    { intros p Hp. apply archive_rows_In.
      unfold slice in Hp. eapply skipn_In, firstn_In, Hp. }
    split; [reflexivity|].
    split; [unfold slice; rewrite length_firstn; lia|].
    split; [|split; [exact Hin|]].
    + unfold slice. apply sorted_firstn, sorted_skipn.
      unfold archive_rows. apply order_by_sorted.
    + intros p Hp Heq. apply Hin in Hp. destruct Hp as (_ & Hgt & _).
      rewrite Heq, datetime_gt_irrefl in Hgt. discriminate.
  - intros p Hin Hgt Hle.
    assert (Hrow : In p (archive_rows start stop (posts (db w))))
      by (apply archive_rows_In; auto).
    apply slice_covers in Hrow.
    destruct Hrow as (page & Hpage & Hoff & Hrow).
    assert (Hlen : (List.length (archive_rows start stop (posts (db w)))
                    <= List.length (posts (db w)))%nat).
    { rewrite (Permutation_length (archive_rows_perm _ _ _)).
      apply filter_length_le. }
    assert (Hpr : page_in_range (get_page (with_page r page))).
    { unfold page_in_range. cbn [with_page get_page arg_page].
      rewrite clamp_id by exact Hpage. lia. }
    destruct (archive_eq month year (with_page r page) w _ _ Hlo Hhi' Hpr)
      as (w' & Ha & _).
    exists page. do 4 eexists. split; [exact Hpage|]. split; [exact Ha|].
    cbn [Pagination.items page_of with_page get_page arg_page].
    now rewrite clamp_id.
  - unfold datetime_gt, datetime_compare, start, stop, first_of_month, fields.
    cbn. rewrite Z.compare_refl.
    replace (month + 1 ?= month) with Gt; [reflexivity|].
    symmetry. apply Z.compare_gt_iff. lia.
  - apply datetime_le_refl.
Qed.

Lemma archive_month_range_witness :
  exists items next prev w',
    archive 3 2024 (get_request "/archive/3/2024" None)
      (world_of_posts [post_at 1 (mk_datetime 2024 3 9 12 0 0 0)])
    = Ok (render_template "index.html" (IndexArgs items next prev), w')
    /\ (List.length items <= 10)%nat.
Proof.
  destruct (archive_month_range 3 2024
              (get_request "/archive/3/2024" None)
              (world_of_posts [post_at 1 (mk_datetime 2024 3 9 12 0 0 0)])
              ltac:(lia) ltac:(lia)
              ltac:(now apply page_in_range_small)
              ltac:(vm_compute; discriminate))
    as (rows & _ & _ & (items & next & prev & w' & Ha & _ & Hl & _) & _).
  exists items, next, prev, w'. split; [exact Ha | exact Hl].
Defined.

(** C5 as stated fails: a post published at the first instant of March
    is not in the March archive. *)
Lemma archive_excludes_first_instant :
  exists w',
    archive 3 2024 (get_request "/archive/3/2024" None)
      (world_of_posts [post_at 1 (first_of_month 2024 3)])
    = Ok (render_template "index.html" (IndexArgs [] None None), w').
Proof. eexists. vm_compute. reflexivity. Qed.

Lemma archive_raises (month year : Z) (r : Request) (w : World) :
  ~ (1 <= month <= 12 /\ 1 <= year <= 9999) ->
  exists e,
    archive month year r w = Raise e
    /\ (INT_MIN <= year <= INT_MAX /\ INT_MIN <= month <= INT_MAX ->
        exists msg, e = ValueError msg)
    /\ (~ (INT_MIN <= year <= INT_MAX /\ INT_MIN <= month <= INT_MAX) ->
        e = OverflowError).
Proof.
  intros Hbad.
  assert (Hdec : (INT_MIN <= year <= INT_MAX /\ INT_MIN <= month <= INT_MAX)
                 \/ ~ (INT_MIN <= year <= INT_MAX
                       /\ INT_MIN <= month <= INT_MAX)) by lia.
  destruct Hdec as [[Hy Hm]|Hover].
  - destruct (datetime_new_value_error year month Hy Hm Hbad) as (msg & H).
    exists (ValueError msg). split; [|split].
    + unfold archive, bind, lift. now rewrite H.
    + eauto.
    + intros Hn. exfalso. apply Hn. split; assumption.
  - exists OverflowError. split; [|split].
    + unfold archive, bind, lift.
      now rewrite (datetime_new_overflow year month Hover).
    + intros Hfit. contradiction.
    + reflexivity.
Qed.

(** C10.  Whenever the month is outside 1..12 the archive raises while
    building its dates, and returns neither an empty listing nor any
    other page: the error is a [ValueError] when month and year are
    within the range of a C [int], and an [OverflowError] beyond it. *)
Theorem archive_month_out_of_range
    (month year : Z) (r : Request) (w : World) :
  ~ (1 <= month <= 12) ->
  exists e,
    archive month year r w = Raise e
    /\ (INT_MIN <= year <= INT_MAX /\ INT_MIN <= month <= INT_MAX ->
        exists msg, e = ValueError msg)
    /\ (~ (INT_MIN <= year <= INT_MAX /\ INT_MIN <= month <= INT_MAX) ->
        e = OverflowError).
Proof.
  intros Hm. apply archive_raises. intros [H _]. exact (Hm H).
Qed.

Lemma archive_month_out_of_range_witness :
  archive 13 2024 (get_request "/archive/13/2024" None)
    (world_of_posts (sample_posts 3))
  = Raise (ValueError "month must be in 1..12")
  /\ archive 2147483648 2024 (get_request "/archive/2147483648/2024" None)
       (world_of_posts (sample_posts 3))
     = Raise OverflowError.
Proof.
  split.
  - destruct (archive_month_out_of_range 13 2024
                (get_request "/archive/13/2024" None)
                (world_of_posts (sample_posts 3)) ltac:(lia))
      as (e & H & _).
    rewrite H. vm_compute in H. symmetry. exact H.
  - reflexivity.
Defined.

(** ** The required-field check *)

Lemma has_nonspace_lstrip (s : string) :
  has_nonspace (lstrip s) = has_nonspace s.
Proof.
  induction s as [|c s IH]; [reflexivity|]. cbn [lstrip has_nonspace].
  destruct (isspace c) eqn:E; [exact IH|].
  cbn [has_nonspace]. now rewrite E.
Qed.

Lemma truthy_rstrip (s : string) : truthy (rstrip s) = has_nonspace s.
Proof.
  induction s as [|c s IH]; [reflexivity|]. cbn [rstrip has_nonspace].
  destruct (rstrip s); cbn [truthy] in *; rewrite <- IH.
  - destruct (isspace c); reflexivity.
  - now rewrite orb_true_r.
Qed.

Lemma truthy_strip (s : string) : truthy (strip s) = has_nonspace s.
Proof. unfold strip. now rewrite truthy_rstrip, has_nonspace_lstrip. Qed.

Lemma has_nonspace_truthy (s : string) :
  has_nonspace s = true -> truthy s = true.
Proof. now destruct s. Qed.

Lemma DataRequired_present (f : Field) :
  DataRequired f = None <-> has_nonspace (data f) = true.
Proof.
  unfold DataRequired. rewrite truthy_strip.
  destruct (has_nonspace (data f)) eqn:E.
  - rewrite (has_nonspace_truthy _ E). split; reflexivity.
  - rewrite andb_false_r. split; discriminate.
Qed.

Lemma Field_validate_present (s : string) (errs : list string) :
  has_nonspace s = true -> Field_validate (mk_field s errs) = mk_field s [].
Proof.
  intros H. unfold Field_validate.
  now rewrite (proj2 (DataRequired_present (mk_field s errs)) H).
Qed.

(** ** Lookup by a unique email *)

Lemma filter_email_none (e : string) (us : list User.t) :
  (forall u, In u us -> User.email u <> e) ->
  filter (fun u => String.eqb (User.email u) e) us = [].
Proof.
  induction us as [|u us IH]; intros H; [reflexivity|]. cbn [filter].
  destruct (String.eqb_spec (User.email u) e) as [Heq|_].
  - exfalso. apply (H u); [now left | exact Heq].
  - apply IH. intros v Hv. apply H. now right.
Qed.

Lemma filter_email_unique (e : string) (us : list User.t) (u : User.t) :
  NoDup (map User.email us) -> In u us -> User.email u = e ->
  filter (fun v => String.eqb (User.email v) e) us = [u].
Proof.
  induction us as [|v us IH]; intros Hnd Hin He; [contradiction|].
  cbn [map] in Hnd. inversion Hnd as [|? ? Hnotin Hnd']; subst.
  cbn [filter]. destruct Hin as [->|Hin].
  - rewrite String.eqb_refl. f_equal. apply filter_email_none.
    intros x Hx Heq. apply Hnotin. rewrite <- Heq. now apply in_map.
  - destruct (String.eqb_spec (User.email v) (User.email u)) as [Heq|_].
    + exfalso. apply Hnotin. rewrite Heq. now apply in_map.
    + now apply IH.
Qed.

Lemma unique_email_user (us : list User.t) (u v : User.t) :
  NoDup (map User.email us) -> In u us -> In v us ->
  User.email u = User.email v -> u = v.
Proof.
  intros Hnd Hu Hv He.
  pose proof (filter_email_unique _ us u Hnd Hu eq_refl) as H1.
  pose proof (filter_email_unique _ us v Hnd Hv (eq_sym He)) as H2.
  congruence.
Qed.

(** ** [LoginForm.validate] *)

Lemma validate_match (e p : string) (u : User.t) (w : World) :
  unique_emails (db w) ->
  has_nonspace e = true -> has_nonspace p = true ->
  In u (users (db w)) -> User.email u = e -> User.password u = p ->
  LoginForm.validate None (LoginForm.init e p) w
  = Ok ((true, accepted e p u), logged w TUser).
Proof.
  intros Hnd He Hp Hin Hue Hup.
  unfold LoginForm.validate, LoginForm.FlaskForm_validate, LoginForm.init.
  cbn [LoginForm.email LoginForm.password LoginForm.user
       LoginForm.csrf_token_errors csrf_validate].
  rewrite !Field_validate_present by assumption.
  cbn [no_errors no_csrf_errors errors andb negb data].
  unfold bind, User_filter_by_email, bind, log_query, get_world, lift.
  cbn [db users]. rewrite (filter_email_unique e _ u Hnd Hin Hue).
  cbn [one_or_none]. unfold User.check_password.
  rewrite Hup, String.eqb_refl. reflexivity.
Qed.

Lemma validate_no_match (e p : string) (w : World) :
  unique_emails (db w) ->
  has_nonspace e = true -> has_nonspace p = true ->
  (forall u, In u (users (db w)) -> User.email u = e -> User.password u <> p) ->
  LoginForm.validate None (LoginForm.init e p) w
  = Ok ((false, rejected e p), logged w TUser).
Proof.
  intros Hnd He Hp Hno.
  unfold LoginForm.validate, LoginForm.FlaskForm_validate, LoginForm.init.
  cbn [LoginForm.email LoginForm.password LoginForm.user
       LoginForm.csrf_token_errors csrf_validate].
  rewrite !Field_validate_present by assumption.
  cbn [no_errors no_csrf_errors errors andb negb data].
  unfold bind, User_filter_by_email, bind, log_query, get_world, lift.
  cbn [db users].
  destruct (filter (fun u => String.eqb (User.email u) e) (users (db w)))
    as [|u [|v rest]] eqn:Hf.
  - reflexivity.
  - assert (Hin : In u (filter (fun u => String.eqb (User.email u) e)
                               (users (db w))))
      by (rewrite Hf; now left).
    apply filter_In in Hin. destruct Hin as [Hin Heq].
    apply String.eqb_eq in Heq.
    cbn [one_or_none]. unfold User.check_password.
    destruct (String.eqb_spec (User.password u) p) as [Hpw|_];
      [|reflexivity].
    exfalso. exact (Hno u Hin Heq Hpw).
  - exfalso.
    assert (Hu : In u (filter (fun u => String.eqb (User.email u) e)
                              (users (db w))))
      by (rewrite Hf; now left).
    apply filter_In in Hu. destruct Hu as [Hu Hue].
    apply String.eqb_eq in Hue.
    rewrite (filter_email_unique e _ u Hnd Hu Hue) in Hf. discriminate.
Qed.

Lemma validate_invalid (csrf : option string) (f : LoginForm.t) (w : World) :
  snd (LoginForm.FlaskForm_validate csrf f) = false ->
  LoginForm.validate csrf f w
  = Ok ((false, fst (LoginForm.FlaskForm_validate csrf f)), w).
Proof.
  intros H. unfold LoginForm.validate.
  destruct (LoginForm.FlaskForm_validate csrf f) as [self rv].
  cbn [fst snd] in *. now rewrite H.
Qed.

Lemma validate_blank (csrf : option string) (e p : string) (w : World) :
  has_nonspace e = false \/ has_nonspace p = false ->
  LoginForm.validate csrf (LoginForm.init e p) w
  = Ok ((false,
         fst (LoginForm.FlaskForm_validate csrf (LoginForm.init e p))), w).
Proof.
  intros H. apply validate_invalid.
  unfold LoginForm.FlaskForm_validate, LoginForm.init.
  cbn [LoginForm.email LoginForm.password LoginForm.user snd].
  assert (Hrv : no_errors (Field_validate (mk_field e []))
                && no_errors (Field_validate (mk_field p [])) = false).
  { unfold Field_validate.
    destruct (DataRequired (mk_field e [])) eqn:E1;
      [reflexivity|].
    destruct (DataRequired (mk_field p [])) eqn:E2;
      [apply andb_false_r|].
    apply DataRequired_present in E1, E2. cbn [data] in *.
    destruct H; congruence. }
  now rewrite Hrv.
Qed.

Lemma validate_bad_token (msg e p : string) (w : World) :
  LoginForm.validate (Some msg) (LoginForm.init e p) w
  = Ok ((false,
         fst (LoginForm.FlaskForm_validate (Some msg) (LoginForm.init e p))),
        w).
Proof.
  apply validate_invalid.
  unfold LoginForm.FlaskForm_validate. cbn [snd csrf_validate no_csrf_errors].
  apply andb_false_r.
Qed.

(** C1, as the code has it.  Over a store that keeps emails unique, for
    every login attempt submitted with a valid CSRF token whose email
    and password each contain a character that is not whitespace: if a
    stored user has that email and that password, [validate] succeeds
    and binds exactly that user; otherwise it fails, the message
    "Invalid email and/or password specified." is the one error of the
    password field, and no user is bound.  Either way the store is
    queried once.  With a token that does not validate, [validate]
    fails on the token alone, without the message and without a
    query. *)
Theorem validate_credentials (e p : string) (w : World) :
  unique_emails (db w) ->
  has_nonspace e = true ->
  has_nonspace p = true ->
  (forall u,
      In u (users (db w)) -> User.email u = e -> User.password u = p ->
      LoginForm.validate None (LoginForm.init e p) w
      = Ok ((true,
             LoginForm.mk (mk_field e []) (mk_field p []) [] (Some u)),
            logged w TUser))
  /\ ((forall u,
          In u (users (db w)) -> User.email u = e -> User.password u <> p) ->
      LoginForm.validate None (LoginForm.init e p) w
      = Ok ((false,
             LoginForm.mk (mk_field e [])
               (mk_field p ["Invalid email and/or password specified."])
               [] None),
            logged w TUser))
  /\ (forall msg,
        LoginForm.validate (Some msg) (LoginForm.init e p) w
        = Ok ((false,
               LoginForm.mk (mk_field e []) (mk_field p []) [msg] None),
              w)).
Proof.
  intros Hnd He Hp. split; [|split].
  - intros u Hin Hue Hup. now apply validate_match.
  - intros Hno. now apply validate_no_match.
  - intros msg. rewrite validate_bad_token.
    unfold LoginForm.FlaskForm_validate, LoginForm.init.
    cbn [fst LoginForm.email LoginForm.password LoginForm.user csrf_validate].
    now rewrite !Field_validate_present by assumption.
Qed.

Lemma validate_credentials_witness :
  LoginForm.validate None (LoginForm.init "alice@sample.com" "secret")
                     (world_of (mk_db [alice] [] []))
  = Ok ((true, LoginForm.mk (mk_field "alice@sample.com" [])
                            (mk_field "secret" []) [] (Some alice)),
        logged (world_of (mk_db [alice] [] [])) TUser).
Proof.
  refine (proj1 (validate_credentials "alice@sample.com" "secret"
                   (world_of (mk_db [alice] [] [])) _ eq_refl eq_refl)
                alice _ eq_refl eq_refl).
  - repeat constructor. simpl. tauto.
  - simpl. tauto.
Defined.

(** C1 as stated fails: with a blank (whitespace-only) email and a
    valid CSRF token no stored user matches, yet the failure carries no
    "Invalid email and/or password" message on the password field. *)
Lemma validate_blank_email_no_message :
  " " <> ""
  /\ "secret" <> ""
  /\ LoginForm.validate None (LoginForm.init " " "secret")
                        (world_of (mk_db [alice] [] []))
     = Ok ((false, LoginForm.mk (mk_field " " ["This field is required."])
                                (mk_field "secret" []) [] None),
           world_of (mk_db [alice] [] [])).
Proof. repeat split; try discriminate. Qed.

(** C7.  When the email or the password is empty, [validate] fails
    without touching the store, whatever the CSRF token: the world,
    query log included, is returned as it was, no user is bound, and
    the result is the same over every store. *)
Theorem validate_missing_field
    (csrf : option string) (e p : string) (w : World) :
  e = "" \/ p = "" ->
  exists form,
    LoginForm.validate csrf (LoginForm.init e p) w = Ok ((false, form), w)
    /\ LoginForm.user form = None
    /\ forall w2,
         LoginForm.validate csrf (LoginForm.init e p) w2
         = Ok ((false, form), w2).
Proof.
  intros H.
  assert (Hb : has_nonspace e = false \/ has_nonspace p = false)
    by (destruct H; subst; auto).
  exists (fst (LoginForm.FlaskForm_validate csrf (LoginForm.init e p))).
  split; [now apply validate_blank|]. split; [reflexivity|].
  intros w2. now apply validate_blank.
Qed.

Lemma validate_missing_field_witness :
  exists form,
    LoginForm.validate None (LoginForm.init "" "secret")
                       (world_of (mk_db [alice] [] []))
    = Ok ((false, form), world_of (mk_db [alice] [] []))
    /\ LoginForm.user form = None.
Proof.
  destruct (validate_missing_field None "" "secret"
              (world_of (mk_db [alice] [] [])) (or_introl eq_refl))
    as (form & H & Hu & _).
  exists form. split; [exact H | exact Hu].
Defined.

(** C9, as the code has it.  Over a store that keeps emails unique,
    take two login attempts submitted with a valid CSRF token whose
    fields each contain a character that is not whitespace, one with an
    email no stored user has and one with a stored user's email and a
    wrong password.  Both fail with the same outcome: no error on the
    email field or on the token, the one generic message on the
    password field, no user bound, and one query made. *)
Theorem validate_failures_alike
    (e1 p1 e2 p2 : string) (u : User.t) (w : World) :
  unique_emails (db w) ->
  has_nonspace e1 = true -> has_nonspace p1 = true ->
  has_nonspace e2 = true -> has_nonspace p2 = true ->
  (forall v, In v (users (db w)) -> User.email v <> e1) ->
  In u (users (db w)) -> User.email u = e2 -> User.password u <> p2 ->
  exists f1 f2,
    LoginForm.validate None (LoginForm.init e1 p1) w
    = Ok ((false, f1), logged w TUser)
    /\ LoginForm.validate None (LoginForm.init e2 p2) w
       = Ok ((false, f2), logged w TUser)
    /\ outcome (false, f1) = outcome (false, f2)
    /\ outcome (false, f1)
       = (false, [], ["Invalid email and/or password specified."], [], None).
Proof.
  intros Hnd He1 Hp1 He2 Hp2 Hnone Hin Hue Hup.
  exists (rejected e1 p1), (rejected e2 p2).
  split; [|split; [|split; reflexivity]].
  - apply validate_no_match; auto.
    intros v Hv Heq. exfalso. exact (Hnone v Hv Heq).
  - apply validate_no_match; auto.
    intros v Hv Heq.
    assert (v = u)
      by (apply (unique_email_user (users (db w))); auto; congruence).
    now subst v.
Qed.

Lemma validate_failures_alike_witness :
  exists f1 f2,
    LoginForm.validate None (LoginForm.init "mallory@sample.com" "guess")
                       (world_of (mk_db [alice] [] []))
    = Ok ((false, f1), logged (world_of (mk_db [alice] [] [])) TUser)
    /\ LoginForm.validate None (LoginForm.init "alice@sample.com" "guess")
                          (world_of (mk_db [alice] [] []))
       = Ok ((false, f2), logged (world_of (mk_db [alice] [] [])) TUser)
    /\ outcome (false, f1) = outcome (false, f2).
Proof.
  assert (Hnd : unique_emails (db (world_of (mk_db [alice] [] []))))
    by (repeat constructor; simpl; tauto).
  assert (Hnone : forall v,
             In v (users (db (world_of (mk_db [alice] [] [])))) ->
             User.email v <> "mallory@sample.com")
    by (intros v [<-|[]]; discriminate).
  assert (Hin : In alice (users (db (world_of (mk_db [alice] [] [])))))
    by (simpl; tauto).
  assert (Hpw : User.password alice <> "guess") by discriminate.
  destruct (validate_failures_alike
              "mallory@sample.com" "guess" "alice@sample.com" "guess"
              alice (world_of (mk_db [alice] [] []))
              Hnd eq_refl eq_refl eq_refl eq_refl Hnone Hin eq_refl Hpw)
    as (f1 & f2 & H1 & H2 & Ho & _).
  exists f1, f2. repeat split; assumption.
Defined.

(** C9 as stated fails: a blank email matches no stored user, and that
    attempt fails differently from one with a stored email and a wrong
    password, both submitted with a valid CSRF token. *)
Lemma validate_blank_email_differs :
  exists f1 f2 w1 w2,
    LoginForm.validate None (LoginForm.init " " "guess")
                       (world_of (mk_db [alice] [] []))
    = Ok ((false, f1), w1)
    /\ LoginForm.validate None (LoginForm.init "alice@sample.com" "guess")
                          (world_of (mk_db [alice] [] []))
       = Ok ((false, f2), w2)
    /\ outcome (false, f1) <> outcome (false, f2).
Proof.
  do 4 eexists.
  split; [vm_compute; reflexivity|]. split; [vm_compute; reflexivity|].
  discriminate.
Qed.

(** ** The access gate *)





Lemma validate_true_binds
    (c : option string) (f form : LoginForm.t) (w w' : World) :
  LoginForm.validate c f w = Ok ((true, form), w') ->
  exists u, LoginForm.user form = Some u.
Proof.
  unfold LoginForm.validate.
  destruct (LoginForm.FlaskForm_validate c f) as [self rv].
  destruct (negb rv); [discriminate|].
  unfold bind.
  destruct (User_filter_by_email (data (LoginForm.email self)) w)
    as [[found w0]|]; [|discriminate].
  destruct found as [u|]; [|discriminate].
  destruct (User.check_password u (data (LoginForm.password self)));
    [|discriminate].
  cbn [ret]. intros H. injection H as <- _. now exists u.
Qed.




(** ** The bootstrap hook *)

Lemma existsb_email_none (e : string) (us : list User.t) :
  (forall u, In u us -> User.email u <> e) ->
  existsb (fun u => String.eqb (User.email u) e) us = false.
Proof.
  induction us as [|u us IH]; intros H; [reflexivity|]. cbn [existsb].
  destruct (String.eqb_spec (User.email u) e) as [Heq|_].
  - exfalso. apply (H u); [now left | exact Heq].
  - apply IH. intros v Hv. apply H. now right.
Qed.

(** C6 fails on the code.  From a state with no pending objects and no
    user with email blogger@sample.com, [initialize_data] returns, and
    afterwards that user is stored with the default password, while the
    categories are exactly those stored before: the "All" category it
    builds is never added to the session. *)
Theorem initialize_data_leaves_categories (w : World) :
  db_session w = [] ->
  (forall u, In u (users (db w)) -> User.email u <> "blogger@sample.com") ->
  exists w',
    initialize_data w = Ok (tt, w')
    /\ users (db w')
       = users (db w) ++ [blogger (next_id (map User.id (users (db w))))]
    /\ categories (db w') = categories (db w)
    /\ posts (db w') = posts (db w).
Proof.
  intros Hs Hno.
  unfold initialize_data, bind, User_filter_by_email, bind, log_query,
    get_world, lift.
  cbn [db users]. rewrite (filter_email_none _ _ Hno). cbn [one_or_none].
  unfold db_session_add, db_session_commit.
  cbn [db db_session]. rewrite Hs. cbn [app flush insert].
  rewrite (existsb_email_none _ _ Hno).
  eexists. split; [reflexivity|]. cbn. auto.
Qed.

Lemma initialize_data_leaves_categories_witness :
  exists w',
    initialize_data (world_of (mk_db [] [] [])) = Ok (tt, w')
    /\ users (db w') = [blogger 1]
    /\ categories (db w') = [].
Proof.
  destruct (initialize_data_leaves_categories (world_of (mk_db [] [] []))
              eq_refl (fun u (H : In u []) => False_ind _ H))
    as (w' & H & Hu & Hc & _).
  exists w'. split; [exact H|]. split; [exact Hu | exact Hc].
Defined.

(** * Further properties of the module *)

(** ** Loading the session's user *)

Lemma to_int_digits (z : Z) :
  Z.to_int z <> Decimal.Pos Decimal.Nil
  /\ Z.to_int z <> Decimal.Neg Decimal.Nil.
Proof.
  destruct z as [|q|q]; cbn; split; try discriminate;
    intros H; injection H as H; exact (Unsigned.to_uint_nonnil q H).
Qed.

Lemma string_of_Z_inj (a b : Z) : string_of_Z a = string_of_Z b -> a = b.
Proof.
  unfold string_of_Z. intros H. apply to_int_inj.
  destruct (to_int_digits a) as [Ha1 Ha2].
  destruct (to_int_digits b) as [Hb1 Hb2].
  pose proof (NilZero.isi _ Ha1 Ha2) as Ea.
  pose proof (NilZero.isi _ Hb1 Hb2) as Eb.
  rewrite H in Ea. congruence.
Qed.

Lemma string_of_Z_truthy (z : Z) : truthy (string_of_Z z) = true.
Proof.
  unfold string_of_Z.
  destruct z as [|q|q]; cbn; [reflexivity| |reflexivity].
  pose proof (Unsigned.to_uint_nonnil q) as H.
  destruct (Pos.to_uint q); [congruence|reflexivity..].
Qed.

Lemma find_by_id (us : list User.t) (u : User.t) :
  NoDup (map User.id us) -> In u us ->
  find (fun v => String.eqb (User.get_id v) (User.get_id u)) us = Some u.
Proof.
  induction us as [|v us IH]; intros Hnd Hin; [contradiction|].
  cbn [map] in Hnd. inversion Hnd as [|? ? Hnotin Hnd']; subst.
  cbn [find]. destruct Hin as [->|Hin].
  - now rewrite String.eqb_refl.
  - destruct (String.eqb_spec (User.get_id v) (User.get_id u)) as [Heq|_].
    + exfalso. apply Hnotin. apply string_of_Z_inj in Heq.
      rewrite Heq. now apply in_map.
    + now apply IH.
Qed.

Lemma find_by_id_none (us : list User.t) (n : Z) :
  (forall u, In u us -> User.id u <> n) ->
  find (fun v => String.eqb (User.get_id v) (string_of_Z n)) us = None.
Proof.
  induction us as [|v us IH]; intros H; [reflexivity|]. cbn [find].
  destruct (String.eqb_spec (User.get_id v) (string_of_Z n)) as [Heq|_].
  - exfalso. apply (H v); [now left | now apply string_of_Z_inj].
  - apply IH. intros u Hu. apply H. now right.
Qed.

(** X1.  [load_user] degrades to [None]: handed the decimal text of an
    id no stored user has -- the text of 0 included, which is a
    non-empty string -- it answers [None] after exactly one logged read
    of the user table, and changes nothing else. *)
Theorem load_user_unknown (w : World) (n : Z) :
  (forall u, In u (users (db w)) -> User.id u <> n) ->
  load_user (Some (string_of_Z n)) w = Ok (None, logged w TUser).
Proof.
  intros Hno. unfold load_user. rewrite string_of_Z_truthy.
  unfold User_get, bind, log_query, get_world, ret. cbn [db users].
  now rewrite (find_by_id_none _ _ Hno).
Qed.

Lemma load_user_unknown_witness :
  load_user (Some "0") (world_of (mk_db [alice] [] []))
  = Ok (None, logged (world_of (mk_db [alice] [] [])) TUser).
Proof.
  apply (load_user_unknown (world_of (mk_db [alice] [] [])) 0).
  intros u [<-|[]]; discriminate.
Defined.

Lemma load_user_stored (w : World) (u : User.t) :
  unique_ids (db w) ->
  In u (users (db w)) ->
  load_user (Some (User.get_id u)) w = Ok (Some u, logged w TUser).
Proof.
  intros [Hnd Hpos] Hin. unfold load_user.
  unfold User.get_id at 1. rewrite string_of_Z_truthy.
  unfold User_get, bind, log_query, get_world, ret. cbn [db users].
  now rewrite (find_by_id _ _ Hnd Hin).
Qed.

(** X2.  Over a store with unique, positive ids, [load_user] given the
    id of a stored user, as [get_id] writes it, returns exactly that
    user, after one read; so two stored users with the same id are the
    same user. *)
Theorem load_user_known (w : World) (u v : User.t) :
  unique_ids (db w) ->
  In u (users (db w)) ->
  In v (users (db w)) ->
  load_user (Some (User.get_id u)) w = Ok (Some u, logged w TUser)
  /\ (User.id v = User.id u -> v = u).
Proof.
  intros Hid Hu Hv. split; [now apply load_user_stored|].
  intros He.
  pose proof (load_user_stored w u Hid Hu) as H1.
  pose proof (load_user_stored w v Hid Hv) as H2.
  unfold User.get_id in H1, H2. rewrite He in H2. congruence.
Qed.

Lemma load_user_known_witness :
  load_user (Some "1") (world_of (mk_db [alice] [] []))
  = Ok (Some alice, logged (world_of (mk_db [alice] [] [])) TUser).
Proof.
  refine (proj1 (load_user_known (world_of (mk_db [alice] [] []))
                   alice alice _ _ _)).
  - split.
    + repeat constructor. simpl. tauto.
    + intros u [<-|[]]. reflexivity.
  - simpl. tauto.
  - simpl. tauto.
Defined.

(** ** Logging in and out *)

Lemma validate_reads
    (c : option string) (f form : LoginForm.t) (ok : bool) (w w' : World) :
  LoginForm.validate c f w = Ok ((ok, form), w') -> same_state w w'.
Proof.
  unfold LoginForm.validate, same_state.
  destruct (LoginForm.FlaskForm_validate c f) as [self rv].
  destruct (negb rv).
  - cbn [ret]. intros H. injection H as _ _ <-. auto.
  - unfold bind, User_filter_by_email, bind, log_query, get_world, lift.
    cbn [db users].
    destruct (one_or_none _) as [found|]; [|discriminate].
    destruct found as [u|].
    + destruct (User.check_password u (data (LoginForm.password self)));
        cbn [ret]; intros H; injection H as _ _ <-; cbn; auto.
    + cbn [ret]. intros H. injection H as _ _ <-. cbn. auto.
Qed.

Lemma Field_validate_data_eq (f : Field) :
  data (Field_validate f) = data f.
Proof. unfold Field_validate. now destruct (DataRequired f). Qed.

Lemma validate_true_stored
    (c : option string) (f form : LoginForm.t) (w w' : World) :
  LoginForm.validate c f w = Ok ((true, form), w') ->
  exists u,
    LoginForm.user form = Some u
    /\ In u (users (db w))
    /\ User.email u = data (LoginForm.email f)
    /\ User.password u = data (LoginForm.password f).
Proof.
  unfold LoginForm.validate, LoginForm.FlaskForm_validate.
  cbn [fst snd].
  destruct (negb _); [discriminate|].
  unfold bind, User_filter_by_email, bind, log_query, get_world, lift.
  cbn [db users LoginForm.email LoginForm.password].
  rewrite Field_validate_data_eq.
  destruct (filter _ (users (db w))) as [|u [|v rest]] eqn:Hf; cbn [one_or_none];
    try discriminate.
  unfold User.check_password.
  destruct (String.eqb_spec (User.password u)
              (data (Field_validate (LoginForm.password f)))) as [Hpw|_];
    [|discriminate].
  cbn [ret]. intros H. injection H as <- _.
  assert (Hin : In u (filter (fun u => String.eqb (User.email u)
                                         (data (LoginForm.email f)))
                             (users (db w))))
    by (rewrite Hf; now left).
  apply filter_In in Hin. destruct Hin as [Hin Heq].
  apply String.eqb_eq in Heq.
  exists u. cbn [LoginForm.user]. rewrite Field_validate_data_eq in Hpw. auto.
Qed.

(** X3.  A login that is not a successful submission changes nothing:
    on a GET request, or when no stored user has the submitted email
    and password, [login] renders the login page, binds no user, and
    leaves database, session and flashed messages as they were. *)
Theorem login_unsuccessful (r : Request) (w : World) :
  unique_emails (db w) ->
  method r = GET
  \/ (forall u, In u (users (db w)) ->
                User.email u = form_email r ->
                User.password u <> form_password r) ->
  exists form w',
    login r w = Ok (render_template "login.html" (LoginArgs form), w')
    /\ LoginForm.user form = None
    /\ same_state w w'.
Proof.
  intros Hnd H. unfold login, is_submitted.
  destruct (method r) eqn:Hm.
  - do 2 eexists. split; [reflexivity|]. split; [reflexivity|].
    unfold same_state. auto.
  - destruct H as [H|Hno]; [discriminate|].
    unfold bind at 1.
    destruct (csrf r) as [msg|].
    { rewrite validate_bad_token.
      do 2 eexists. split; [reflexivity|]. split; [reflexivity|].
      unfold same_state. auto. }
    destruct (has_nonspace (form_email r)) eqn:He;
      [destruct (has_nonspace (form_password r)) eqn:Hp|].
    + rewrite (validate_no_match _ _ w Hnd He Hp Hno).
      do 2 eexists. split; [reflexivity|]. split; [reflexivity|].
      unfold same_state. cbn. auto.
    + rewrite (validate_blank None _ _ w (or_intror Hp)).
      do 2 eexists. split; [reflexivity|]. split; [reflexivity|].
      unfold same_state. auto.
    + rewrite (validate_blank None _ _ w (or_introl He)).
      do 2 eexists. split; [reflexivity|]. split; [reflexivity|].
      unfold same_state. auto.
Qed.

Lemma login_unsuccessful_witness :
  exists form w',
    login (post_login "alice@sample.com" "guess" None)
          (world_of (mk_db [alice] [] []))
    = Ok (render_template "login.html" (LoginArgs form), w')
    /\ LoginForm.user form = None
    /\ same_state (world_of (mk_db [alice] [] [])) w'.
Proof.
  apply (login_unsuccessful
           (post_login "alice@sample.com" "guess" None)
           (world_of (mk_db [alice] [] []))).
  - repeat constructor. simpl. tauto.
  - right. intros u [<-|[]] _. discriminate.
Defined.

(** X4.  A successful login redirects to whatever non-empty [next] the
    request carries, unchanged, and to the index when [next] is empty
    or absent; it flashes "Logged in successfully." and leaves the
    database as it was. *)
Theorem login_redirect_target
    (r : Request) (w w' : World) (form : LoginForm.t) :
  method r = POST ->
  LoginForm.validate (csrf r)
    (LoginForm.init (form_email r) (form_password r)) w
  = Ok ((true, form), w') ->
  exists t w3,
    login r w = Ok (redirect (mk_location t None), w3)
    /\ flashes w3 = flashes w ++ ["Logged in successfully."]
    /\ db w3 = db w
    /\ t <> ""
    /\ (forall s, arg_next r = Some s -> s <> "" -> t = s)
    /\ (arg_next r = Some "" \/ arg_next r = None -> t = "/").
Proof.
  intros Hm Hv.
  destruct (validate_true_binds _ _ _ _ _ Hv) as (u & Hu).
  destruct (validate_reads _ _ _ _ _ _ Hv) as (Hdb & _ & _ & Hfl).
  exists (or_else (arg_next r) (url_for ep_index None)).
  unfold login, is_submitted. rewrite Hm.
  unfold bind at 1. rewrite Hv, Hu.
  eexists. split; [reflexivity|]. cbn [flashes db].
  rewrite Hfl, Hdb. split; [reflexivity|]. split; [reflexivity|].
  unfold or_else. split; [|split].
  - destruct (arg_next r) as [[|c s]|]; cbn; discriminate.
  - intros s Hs Hne. rewrite Hs. destruct s; [congruence | reflexivity].
  - intros [Hs|Hs]; rewrite Hs; reflexivity.
Qed.

Lemma login_redirect_target_witness :
  exists w3,
    login (post_login "alice@sample.com" "secret"
                      (Some "//elsewhere.example/"))
          (world_of (mk_db [alice] [] []))
    = Ok (redirect (mk_location "//elsewhere.example/" None), w3).
Proof.
  destruct (login_redirect_target
              (post_login "alice@sample.com" "secret"
                          (Some "//elsewhere.example/"))
              (world_of (mk_db [alice] [] []))
              (logged (world_of (mk_db [alice] [] [])) TUser)
              (accepted "alice@sample.com" "secret" alice)
              eq_refl eq_refl)
    as (t & w3 & Hl & _ & _ & _ & Hs & _).
  exists w3. rewrite Hl.
  now rewrite (Hs "//elsewhere.example/" eq_refl ltac:(discriminate)).
Defined.

Lemma current_user_known (w : World) (u : User.t) :
  unique_ids (db w) -> In u (users (db w)) ->
  session_user_id w = Some (User.get_id u) ->
  current_user w = Ok (Some u, logged w TUser).
Proof.
  intros Hid Hin Hs. unfold current_user, bind, get_world. rewrite Hs.
  now apply load_user_stored.
Qed.

(** X5.  Binding then resolving: over a store with unique, positive
    ids, after a successful login the account view renders
    [account.html] for exactly the user that was validated, and that
    user is a stored user with the submitted email and password. *)
Theorem login_then_account
    (r r2 : Request) (w w' : World) (form : LoginForm.t) :
  unique_ids (db w) ->
  method r = POST ->
  LoginForm.validate (csrf r)
    (LoginForm.init (form_email r) (form_password r)) w
  = Ok ((true, form), w') ->
  exists u loc w3 w4,
    In u (users (db w))
    /\ User.email u = form_email r
    /\ User.password u = form_password r
    /\ login r w = Ok (redirect loc, w3)
    /\ account r2 w3
       = Ok (render_template "account.html" (AccountArgs (Some u)), w4)
    /\ session_user_id w4 = Some (User.get_id u)
    /\ db w4 = db w.
Proof.
  intros Hid Hm Hv.
  destruct (validate_true_stored _ _ _ _ _ Hv) as (u & Hu & Hin & He & Hp).
  destruct (validate_reads _ _ _ _ _ _ Hv) as (Hdb & _ & _ & _).
  exists u. unfold login, is_submitted. rewrite Hm.
  unfold bind at 1. rewrite Hv, Hu.
  do 3 eexists. split; [exact Hin|]. split; [exact He|]. split; [exact Hp|].
  split; [reflexivity|].
  match goal with
  | |- account r2 ?w3 = _ /\ _ =>
      assert (Hc : current_user w3 = Ok (Some u, logged w3 TUser))
  end.
  { apply current_user_known; cbn [db session_user_id]; try reflexivity;
      rewrite Hdb; assumption. }
  unfold account, login_required. unfold bind at 1. rewrite Hc.
  split; [reflexivity|]. cbn. split; [reflexivity | exact Hdb].
Qed.

Lemma login_then_account_witness :
  exists loc w3 w4,
    login (post_login "alice@sample.com" "secret" None)
          (world_of (mk_db [alice] [] []))
    = Ok (redirect loc, w3)
    /\ account (get_request "/account/" None) w3
       = Ok (render_template "account.html" (AccountArgs (Some alice)), w4).
Proof.
  assert (Hid : unique_ids (db (world_of (mk_db [alice] [] [])))).
  { split.
    - repeat constructor. simpl. tauto.
    - intros u [<-|[]]. reflexivity. }
  destruct (login_then_account
              (post_login "alice@sample.com" "secret" None)
              (get_request "/account/" None)
              (world_of (mk_db [alice] [] []))
              (logged (world_of (mk_db [alice] [] [])) TUser)
              (accepted "alice@sample.com" "secret" alice)
              Hid eq_refl eq_refl)
    as (u & loc & w3 & w4 & Hin & _ & _ & Hl & Ha & _).
  destruct Hin as [<-|[]].
  exists loc, w3, w4. split; [exact Hl | exact Ha].
Defined.



(** ** The unit of work *)

Lemma fold_max_ge (ids : list Z) :
  0 <= fold_right Z.max 0 ids
  /\ forall x, In x ids -> x <= fold_right Z.max 0 ids.
Proof.
  induction ids as [|i ids [IH0 IH]]; cbn [fold_right].
  - split; [lia | intros x []].
  - split; [lia|]. intros x [<-|Hx]; [lia|]. specialize (IH x Hx). lia.
Qed.

Lemma next_id_fresh (ids : list Z) :
  0 < next_id ids /\ ~ In (next_id ids) ids.
Proof.
  unfold next_id. destruct (fold_max_ge ids) as [H0 H].
  split; [lia|]. intros Hin. specialize (H _ Hin). lia.
Qed.

Lemma NoDup_snoc {A : Type} (l : list A) (x : A) :
  NoDup l -> ~ In x l -> NoDup (l ++ [x]).
Proof.
  intros Hnd Hx. apply (Permutation_NoDup (l := x :: l)).
  - apply Permutation_cons_append.
  - now constructor.
Qed.

Lemma existsb_email_false (e : string) (us : list User.t) :
  existsb (fun u => String.eqb (User.email u) e) us = false ->
  forall u, In u us -> User.email u <> e.
Proof.
  intros H u Hin Heq.
  assert (Ht : existsb (fun u => String.eqb (User.email u) e) us = true).
  { apply existsb_exists. exists u. split; [exact Hin|].
    now apply String.eqb_eq. }
  congruence.
Qed.

Lemma existsb_email_true (e : string) (us : list User.t) :
  existsb (fun u => String.eqb (User.email u) e) us = true ->
  exists u, In u us /\ User.email u = e.
Proof.
  intros H. apply existsb_exists in H. destruct H as (u & Hin & Heq).
  exists u. split; [exact Hin | now apply String.eqb_eq].
Qed.

Lemma insert_keeps (x : Pending) (d d' : Database) :
  unique_emails d -> unique_ids d ->
  insert x d = Ok d' ->
  unique_emails d' /\ unique_ids d'
  /\ posts d' = posts d
  /\ exists new, users d' = users d ++ new.
Proof.
  intros He [Hid Hpos]. destruct x as [e p|n]; cbn [insert].
  - destruct (existsb _ (users d)) eqn:Hex; [discriminate|].
    intros H. injection H as <-. cbn [users posts].
    pose proof (existsb_email_false _ _ Hex) as Hno.
    destruct (next_id_fresh (map User.id (users d))) as [Hp Hfresh].
    unfold unique_emails, unique_ids in *. cbn [users].
    rewrite !map_app. cbn [map User.email User.id].
    split; [|split; [split|split]].
    + apply NoDup_snoc; [exact He|].
      intros Hin. apply in_map_iff in Hin. destruct Hin as (u & Hu & Hin).
      exact (Hno u Hin Hu).
    + apply NoDup_snoc; assumption.
    + intros u Hu. apply in_app_or in Hu. destruct Hu as [Hu|[<-|[]]];
        [now apply Hpos | exact Hp].
    + reflexivity.
    + eexists. reflexivity.
  - intros H. injection H as <-. cbn [users posts].
    split; [exact He|]. split; [split; assumption|].
    split; [reflexivity|]. exists []. now rewrite app_nil_r.
Qed.

Lemma flush_keeps (xs : list Pending) (d d' : Database) :
  unique_emails d -> unique_ids d ->
  flush xs d = Ok d' ->
  unique_emails d' /\ unique_ids d'
  /\ posts d' = posts d
  /\ exists new, users d' = users d ++ new.
Proof.
  revert d. induction xs as [|x xs IH]; intros d He Hid; cbn [flush].
  - intros H. injection H as <-. split; [exact He|]. split; [exact Hid|].
    split; [reflexivity|]. exists []. now rewrite app_nil_r.
  - destruct (insert x d) as [d1|] eqn:Hi; [|discriminate].
    destruct (insert_keeps _ _ _ He Hid Hi) as (He1 & Hid1 & Hp1 & n1 & Hu1).
    intros Hf. destruct (IH _ He1 Hid1 Hf) as (He' & Hid' & Hp' & n' & Hu').
    split; [exact He'|]. split; [exact Hid'|].
    split; [congruence|]. exists (n1 ++ n').
    now rewrite Hu', Hu1, app_assoc.
Qed.

(** X7.  Committing keeps the store well formed: from a database with
    unique emails and unique positive ids, a commit that succeeds
    leaves a database with unique emails and unique positive ids, in
    which the users stored before are still there, in place, the posts
    are untouched and nothing is left pending. *)
Theorem commit_keeps_store (w w' : World) :
  unique_emails (db w) ->
  unique_ids (db w) ->
  db_session_commit w = Ok (tt, w') ->
  unique_emails (db w') /\ unique_ids (db w')
  /\ posts (db w') = posts (db w)
  /\ (exists new, users (db w') = users (db w) ++ new)
  /\ db_session w' = [].
Proof.
  intros He Hid. unfold db_session_commit.
  destruct (flush (db_session w) (db w)) as [d|] eqn:Hf; [|discriminate].
  intros H. injection H as <-. cbn [db db_session].
  destruct (flush_keeps _ _ _ He Hid Hf) as (He' & Hid' & Hp & Hu).
  auto.
Qed.

Lemma commit_keeps_store_witness :
  unique_emails
    (mk_db [alice; User.mk 2 "bob@sample.com" "hunter2"] [] [])
  /\ unique_ids
       (mk_db [alice; User.mk 2 "bob@sample.com" "hunter2"] [] []).
Proof.
  assert (He : unique_emails (db (mk_world (mk_db [alice] [] [])
                                    [NewUser "bob@sample.com" "hunter2"]
                                    None [] [])))
    by (repeat constructor; simpl; tauto).
  assert (Hid : unique_ids (db (mk_world (mk_db [alice] [] [])
                                  [NewUser "bob@sample.com" "hunter2"]
                                  None [] []))).
  { split.
    - repeat constructor. simpl. tauto.
    - intros u [<-|[]]. reflexivity. }
  destruct (commit_keeps_store
              (mk_world (mk_db [alice] [] [])
                        [NewUser "bob@sample.com" "hunter2"] None [] [])
              (mk_world (mk_db [alice; User.mk 2 "bob@sample.com" "hunter2"]
                               [] [])
                        [] None [] [])
              He Hid eq_refl)
    as (He' & Hid' & _).
  split; [exact He' | exact Hid'].
Defined.

Lemma flush_ok_iff (xs : list Pending) (d : Database) :
  (exists d', flush xs d = Ok d')
  <-> NoDup (pending_emails xs)
      /\ forall e, In e (pending_emails xs) ->
           forall u, In u (users d) -> User.email u <> e.
Proof.
  revert d. induction xs as [|x xs IH]; intros d; cbn [flush pending_emails].
  - split; [intros _; split; [constructor | intros e []] | eauto].
  - destruct x as [e p|n]; cbn [insert].
    + destruct (existsb _ (users d)) eqn:Hex.
      * split; [intros [d' H]; discriminate|].
        intros [_ Hdis]. exfalso.
        destruct (existsb_email_true _ _ Hex) as (u & Hin & Heq).
        exact (Hdis e (or_introl eq_refl) u Hin Heq).
      * pose proof (existsb_email_false _ _ Hex) as Hno.
        rewrite IH. cbn [users]. split.
        -- intros [Hnd Hdis]. split.
           ++ constructor; [|exact Hnd]. intros Hin.
              apply (Hdis e Hin (User.mk (next_id (map User.id (users d))) e p));
                [apply in_or_app; right; now left | reflexivity].
           ++ intros e' [<-|He'] u Hu; [now apply Hno|].
              apply (Hdis e' He' u). apply in_or_app. now left.
        -- intros [Hnd Hdis]. inversion Hnd as [|? ? Hnotin Hnd']; subst.
           split; [exact Hnd'|]. intros e' He' u Hu.
           apply in_app_or in Hu. destruct Hu as [Hu|[<-|[]]].
           ++ apply (Hdis e' (or_intror He') u Hu).
           ++ cbn [User.email]. intros ->. contradiction.
    + rewrite IH. cbn [users]. tauto.
Qed.

(** X8.  A commit succeeds exactly when the emails of the pending users
    are distinct from one another and from every stored email;
    otherwise it raises [IntegrityError]. *)
Theorem commit_ok_iff (w : World) :
  ((exists w', db_session_commit w = Ok (tt, w'))
   <-> NoDup (pending_emails (db_session w))
       /\ forall e, In e (pending_emails (db_session w)) ->
            forall u, In u (users (db w)) -> User.email u <> e)
  /\ (db_session_commit w = Raise IntegrityError
      \/ exists w', db_session_commit w = Ok (tt, w')).
Proof.
  split.
  - rewrite <- flush_ok_iff. unfold db_session_commit. split.
    + intros [w' H].
      destruct (flush (db_session w) (db w)) as [d|]; [eauto | discriminate].
    + intros [d H]. rewrite H. eauto.
  - unfold db_session_commit.
    assert (Hr : forall xs d, flush xs d = Raise IntegrityError
                              \/ exists d', flush xs d = Ok d').
    { induction xs as [|x xs IH]; intros d; cbn [flush]; [eauto|].
      destruct x as [e p|n]; cbn [insert].
      - destruct (existsb _ (users d)); [now left | apply IH].
      - apply IH. }
    destruct (Hr (db_session w) (db w)) as [H|[d H]]; rewrite H; eauto.
Qed.

(** ** More on the bootstrap hook *)

Lemma initialize_data_present (w : World) (u : User.t) :
  unique_emails (db w) ->
  In u (users (db w)) ->
  User.email u = "blogger@sample.com" ->
  initialize_data w = Ok (tt, logged w TUser).
Proof.
  intros Hnd Hin He.
  unfold initialize_data, bind, User_filter_by_email, bind, log_query,
    get_world, lift.
  cbn [db users]. now rewrite (filter_email_unique _ _ u Hnd Hin He).
Qed.

Lemma initialize_data_absent (w : World) :
  db_session w = [] ->
  (forall u, In u (users (db w)) -> User.email u <> "blogger@sample.com") ->
  initialize_data w
  = Ok (tt, mk_world
              (mk_db (users (db w)
                      ++ [blogger (next_id (map User.id (users (db w))))])
                     (posts (db w)) (categories (db w)))
              [] (session_user_id w) (flashes w) (query_log w ++ [TUser])).
Proof.
  intros Hs Hno.
  unfold initialize_data, bind, User_filter_by_email, bind, log_query,
    get_world, lift.
  cbn [db users]. rewrite (filter_email_none _ _ Hno). cbn [one_or_none].
  unfold db_session_add, db_session_commit.
  cbn [db db_session]. rewrite Hs. cbn [app flush insert].
  now rewrite (existsb_email_none _ _ Hno).
Qed.

(** X9.  The seeding is idempotent: over a store with unique emails and
    nothing pending, [initialize_data] returns, afterwards exactly one
    user has the email blogger@sample.com and emails are still unique,
    and running it a second time leaves the database as the first run
    left it. *)
Theorem initialize_data_idempotent (w : World) :
  unique_emails (db w) ->
  db_session w = [] ->
  exists w1 w2 u,
    initialize_data w = Ok (tt, w1)
    /\ initialize_data w1 = Ok (tt, w2)
    /\ db w2 = db w1
    /\ unique_emails (db w1)
    /\ filter (fun v => String.eqb (User.email v) "blogger@sample.com")
              (users (db w1)) = [u].
Proof.
  intros Hnd Hs.
  destruct (existsb (fun u => String.eqb (User.email u) "blogger@sample.com")
                    (users (db w))) eqn:Hex.
  - destruct (existsb_email_true _ _ Hex) as (u & Hin & He).
    exists (logged w TUser), (logged (logged w TUser) TUser), u.
    split; [now apply (initialize_data_present w u)|].
    split; [now apply (initialize_data_present (logged w TUser) u)|].
    split; [reflexivity|]. split; [exact Hnd|].
    now apply filter_email_unique.
  - pose proof (existsb_email_false _ _ Hex) as Hno.
    rewrite (initialize_data_absent w Hs Hno).
    set (b := blogger (next_id (map User.id (users (db w))))).
    assert (Hnd1 : NoDup (map User.email (users (db w) ++ [b]))).
    { rewrite map_app. apply NoDup_snoc; [exact Hnd|].
      intros Hin. apply in_map_iff in Hin. destruct Hin as (u & Hu & Hin).
      exact (Hno u Hin Hu). }
    assert (Hinb : In b (users (db w) ++ [b]))
      by (apply in_or_app; right; now left).
    do 2 eexists. exists b. split; [reflexivity|].
    split; [|split; [|split]].
    + now apply (initialize_data_present _ b).
    + reflexivity.
    + exact Hnd1.
    + cbn [db users]. now apply filter_email_unique.
Qed.

Lemma initialize_data_idempotent_witness :
  exists w1 w2,
    initialize_data (world_of (mk_db [alice] [] [])) = Ok (tt, w1)
    /\ initialize_data w1 = Ok (tt, w2)
    /\ db w2 = db w1.
Proof.
  destruct (initialize_data_idempotent (world_of (mk_db [alice] [] [])))
    as (w1 & w2 & u & H1 & H2 & Hdb & _).
  - repeat constructor. simpl. tauto.
  - reflexivity.
  - exists w1, w2. repeat split; assumption.
Defined.

(** X10.  When a user with the email blogger@sample.com is already
    stored, [initialize_data] changes nothing: users (the stored
    password included), categories, posts and the pending objects are
    as before, and the only trace is one query. *)
Theorem initialize_data_existing_user (w : World) (u : User.t) :
  unique_emails (db w) ->
  In u (users (db w)) ->
  User.email u = "blogger@sample.com" ->
  exists w',
    initialize_data w = Ok (tt, w')
    /\ db w' = db w
    /\ db_session w' = db_session w
    /\ query_log w' = query_log w ++ [TUser].
Proof.
  intros Hnd Hin He. exists (logged w TUser).
  split; [now apply (initialize_data_present w u)|]. auto.
Qed.

Lemma initialize_data_existing_user_witness :
  exists w',
    initialize_data
      (world_of (mk_db [User.mk 1 "blogger@sample.com" "changed"] [] []))
    = Ok (tt, w')
    /\ db w' = mk_db [User.mk 1 "blogger@sample.com" "changed"] [] [].
Proof.
  destruct (initialize_data_existing_user
              (world_of (mk_db [User.mk 1 "blogger@sample.com" "changed"]
                               [] []))
              (User.mk 1 "blogger@sample.com" "changed"))
    as (w' & H & Hdb & _).
  - repeat constructor. simpl. tauto.
  - simpl. tauto.
  - reflexivity.
  - exists w'. split; [exact H | exact Hdb].
Defined.

(** ** More on the listing views *)

Lemma archive_valid (month year : Z) (r : Request) (w : World) :
  1 <= month <= 12 -> 1 <= year <= 9999 ->
  page_in_range (get_page r) ->
  let start := first_of_month year month in
  let stop := if month =? 12 then start
              else first_of_month year (month + 1) in
  let pg := page_of (archive_rows start stop (posts (db w))) (get_page r) in
  exists w',
    archive month year r w
    = Ok (render_template "index.html"
            (IndexArgs (Pagination.items pg)
                       (next_locator (ep_archive month year) pg)
                       (prev_locator (ep_archive month year) pg)), w')
    /\ same_state w w'.
Proof.
  intros Hm Hy Hr start stop pg.
  pose proof (datetime_new_first year month Hy Hm) as Hlo.
  apply (archive_eq month year r w start stop Hlo); [|exact Hr].
  unfold stop. destruct (Z.eqb_spec month 12) as [_|Hne]; [reflexivity|].
  apply datetime_new_first; lia.
Qed.

Lemma archive_page_overflow (month year : Z) (r : Request) (w : World) :
  1 <= month <= 12 -> 1 <= year <= 9999 ->
  ~ page_in_range (get_page r) ->
  archive month year r w = Raise OverflowError.
Proof.
  intros Hm Hy Hr. unfold archive, bind, lift.
  rewrite (datetime_new_first year month Hy Hm).
  destruct (Z.eqb_spec month 12) as [_|Hne]; cbn [ret].
  - unfold get_world. now rewrite paginate_overflow.
  - rewrite (datetime_new_first year (month + 1) Hy) by lia.
    unfold get_world. now rewrite paginate_overflow.
Qed.

Lemma archive_ok_inv
    (month year : Z) (r : Request) (w w' : World) (resp : Response) :
  archive month year r w = Ok (resp, w') ->
  1 <= month <= 12 /\ 1 <= year <= 9999 /\ page_in_range (get_page r).
Proof.
  intros Hok.
  assert (Hdec : (1 <= month <= 12 /\ 1 <= year <= 9999)
                 \/ ~ (1 <= month <= 12 /\ 1 <= year <= 9999)) by lia.
  destruct Hdec as [[Hm Hy]|Hbad].
  - split; [exact Hm|]. split; [exact Hy|].
    assert (Hr : page_in_range (get_page r) \/ ~ page_in_range (get_page r))
      by (unfold page_in_range; lia).
    destruct Hr as [Hr|Hr]; [exact Hr|].
    rewrite (archive_page_overflow month year r w Hm Hy Hr) in Hok.
    discriminate.
  - destruct (archive_raises month year r w Hbad) as (e & Hr & _).
    congruence.
Qed.



Lemma first_of_month_le (y m m' : Z) :
  m <= m' ->
  datetime_le (first_of_month y m) (first_of_month y m') = true.
Proof.
  intros H. unfold datetime_le, datetime_compare, first_of_month, fields.
  cbn. rewrite Z.compare_refl.
  destruct (Z.compare_spec m m'); try reflexivity. lia.
Qed.

(** X12.  Within a year no post is in the archive of two different
    months: items listed by the archive of one month, on any page, are
    never listed by the archive of a later month. *)
Theorem archive_months_disjoint
    (m1 m2 year : Z) (r1 r2 : Request) (w w1 w2 : World)
    (items1 items2 : list Post.t) (n1 p1 n2 p2 : option string) :
  1 <= m1 -> m1 < m2 -> m2 <= 12 ->
  archive m1 year r1 w
  = Ok (render_template "index.html" (IndexArgs items1 n1 p1), w1) ->
  archive m2 year r2 w
  = Ok (render_template "index.html" (IndexArgs items2 n2 p2), w2) ->
  forall p, In p items1 -> ~ In p items2.
Proof.
  intros Hm1 Hlt Hm2 Ha1 Ha2 p Hin1 Hin2.
  destruct (archive_ok_inv _ _ _ _ _ _ Ha1) as (_ & Hy & Hr1).
  destruct (archive_ok_inv _ _ _ _ _ _ Ha2) as (_ & _ & Hr2).
  destruct (archive_valid m1 year r1 w ltac:(lia) Hy Hr1) as (w1' & He1 & _).
  destruct (archive_valid m2 year r2 w ltac:(lia) Hy Hr2) as (w2' & He2 & _).
  rewrite He1 in Ha1. rewrite He2 in Ha2.
  injection Ha1 as Hi1 _ _ _. injection Ha2 as Hi2 _ _ _.
  replace (m1 =? 12) with false in Hi1 by (symmetry; apply Z.eqb_neq; lia).
  rewrite <- Hi1 in Hin1. rewrite <- Hi2 in Hin2.
  cbn [Pagination.items page_of] in Hin1, Hin2. unfold slice in Hin1, Hin2.
  apply firstn_In, skipn_In, archive_rows_In in Hin1.
  apply firstn_In, skipn_In, archive_rows_In in Hin2.
  destruct Hin1 as (_ & _ & Hle). destruct Hin2 as (_ & Hgt & _).
  pose proof (first_of_month_le year (m1 + 1) m2 ltac:(lia)) as Hmono.
  pose proof (datetime_le_trans _ _ _ Hle Hmono) as Hle2.
  rewrite datetime_gt_le, Hle2 in Hgt. discriminate.
Qed.

Lemma archive_months_disjoint_witness :
  ~ In (post_at 1 (mk_datetime 2024 3 9 12 0 0 0))
       [post_at 2 (mk_datetime 2024 4 2 8 0 0 0)].
Proof.
  refine (archive_months_disjoint 3 4 2024
            (get_request "/archive/3/2024" None)
            (get_request "/archive/4/2024" None)
            (world_of_posts [post_at 1 (mk_datetime 2024 3 9 12 0 0 0);
                             post_at 2 (mk_datetime 2024 4 2 8 0 0 0)])
            (logged (world_of_posts
                       [post_at 1 (mk_datetime 2024 3 9 12 0 0 0);
                        post_at 2 (mk_datetime 2024 4 2 8 0 0 0)]) TPost)
            (logged (world_of_posts
                       [post_at 1 (mk_datetime 2024 3 9 12 0 0 0);
                        post_at 2 (mk_datetime 2024 4 2 8 0 0 0)]) TPost)
            [post_at 1 (mk_datetime 2024 3 9 12 0 0 0)]
            [post_at 2 (mk_datetime 2024 4 2 8 0 0 0)]
            None None None None _ _ _ _ _
            (post_at 1 (mk_datetime 2024 3 9 12 0 0 0)) _);
    try lia; try (vm_compute; reflexivity).
  now left.
Defined.

Lemma chunks_concat {A : Type} (k : nat) (l : list A) :
  (List.length l <= 10 * k)%nat ->
  List.concat (map (fun i => firstn 10 (skipn (10 * i)%nat l)) (seq 0 k)) = l.
Proof.
  revert l. induction k as [|k IH]; intros l Hl.
  - destruct l; [reflexivity | simpl in Hl; lia].
  - cbn [seq map List.concat]. rewrite <- seq_shift, map_map.
    change (skipn (10 * 0)%nat l) with l.
    transitivity (firstn 10 l ++ skipn 10 l); [|apply firstn_skipn].
    f_equal.
    etransitivity; [|apply (IH (skipn 10 l)); rewrite length_skipn; lia].
    f_equal. apply map_ext. intros i. f_equal.
    rewrite skipn_skipn. f_equal. lia.
Qed.

Lemma index_items_slice (r : Request) (w : World) (page : Z) :
  1 <= page ->
  page_in_range page ->
  index_items r w page = slice (order_by_pub_date_desc (posts (db w))) page.
Proof.
  intros Hp Hr. unfold index_items.
  destruct (index_eq (with_page r page) w Hr) as (w' & _ & Hi & _).
  rewrite Hi. cbn [listing Pagination.items page_of with_page get_page arg_page].
  now rewrite clamp_id.
Qed.

(** X13.  The pages of the index partition the store: the items of
    pages 1 up to the last page, one after the other, are the stored
    posts by descending publish time, so every stored post is listed on
    exactly one of these pages, and as often as it is stored.  (The
    table holds no more rows than the database can offset by, which is
    what lets every one of these pages be asked for.) *)
Theorem index_pages_partition (r : Request) (w : World) :
  Z.of_nat (List.length (posts (db w))) <= OFFSET_MAX ->
  List.concat (map (index_items r w)
              (page_numbers (List.length (posts (db w)))))
  = order_by_pub_date_desc (posts (db w))
  /\ Permutation
       (List.concat (map (index_items r w)
                    (page_numbers (List.length (posts (db w))))))
       (posts (db w)).
Proof.
  intros Hsize.
  assert (H : List.concat (map (index_items r w)
                          (page_numbers (List.length (posts (db w)))))
              = order_by_pub_date_desc (posts (db w))).
  { unfold page_numbers. rewrite map_map.
    set (rows := order_by_pub_date_desc (posts (db w))).
    pose proof (pages_bound (Z.of_nat (List.length (posts (db w)))))
      as Hb.
    etransitivity;
      [|apply (chunks_concat
                 (Z.to_nat (last_page (List.length (posts (db w))))) rows)].
    - f_equal. apply map_ext_in. intros i Hi. apply in_seq in Hi.
      assert (Hlt : Z.of_nat i < last_page (List.length (posts (db w))))
        by lia.
      unfold last_page in Hlt.
      rewrite index_items_slice;
        [| lia
         | unfold page_in_range; rewrite clamp_id by lia; lia].
      unfold slice, rows. do 2 f_equal. lia.
    - unfold rows. rewrite order_by_length. unfold last_page. lia. }
  split; [exact H|]. rewrite H. apply order_by_perm.
Qed.

Lemma index_pages_partition_witness :
  List.concat (map (index_items (get_request "/" None)
                                (world_of_posts (sample_posts 12)))
                   [1; 2])
  = order_by_pub_date_desc (sample_posts 12).
Proof.
  exact (proj1 (index_pages_partition
                  (get_request "/" None) (world_of_posts (sample_posts 12))
                  ltac:(vm_compute; discriminate))).
Defined.

Lemma has_next_more (rows : list Post.t) (page : Z) :
  Pagination.has_next (page_of rows page)
  = (10 * clamp page <? Z.of_nat (List.length rows)).
Proof.
  unfold Pagination.has_next. rewrite pages_page_of.
  cbn [Pagination.page page_of].
  pose proof (pages_bound (Z.of_nat (List.length rows))).
  destruct (Z.ltb_spec (clamp page) (- (- Z.of_nat (List.length rows) / 10)));
    destruct (Z.ltb_spec (10 * clamp page) (Z.of_nat (List.length rows)));
    try reflexivity; lia.
Qed.

Lemma locators_of_page (ep : Endpoint) (rows : list Post.t) (page : Z) :
  next_locator ep (page_of rows page)
  = (if 10 * clamp page <? Z.of_nat (List.length rows)
     then Some (url_for ep (Some (clamp page + 1))) else None)
  /\ prev_locator ep (page_of rows page)
     = (if clamp page >? 1
        then Some (url_for ep (Some (clamp page - 1))) else None).
Proof.
  unfold next_locator, prev_locator, Pagination.next_num, Pagination.prev_num.
  rewrite has_next_more. unfold Pagination.has_prev.
  cbn [Pagination.page page_of].
  split.
  - now destruct (10 * clamp page <? Z.of_nat (List.length rows)).
  - now destruct (clamp page >? 1).
Qed.

(** X14.  On the index, for a request whose page the database can be
    asked for, with p the requested page (1 when the request asks for
    less) and n the number of stored posts: the next locator is the
    index URL for page p + 1 exactly when posts remain after this page
    (10 p < n), and the previous locator is the index URL for page
    p - 1 exactly when p > 1; otherwise each is [None]. *)
Theorem index_locators (r : Request) (w : World) :
  page_in_range (get_page r) ->
  exists items w',
    index r w
    = Ok (render_template "index.html"
            (IndexArgs items
               (if 10 * clamp (get_page r)
                   <? Z.of_nat (List.length (posts (db w)))
                then Some (url_for ep_index (Some (clamp (get_page r) + 1)))
                else None)
               (if clamp (get_page r) >? 1
                then Some (url_for ep_index (Some (clamp (get_page r) - 1)))
                else None)), w')
    /\ items = index_items r w (clamp (get_page r)).
Proof.
  intros Hr.
  destruct (index_eq r w Hr) as (w' & _ & Hi & _).
  destruct (locators_of_page ep_index
              (order_by_pub_date_desc (posts (db w))) (get_page r))
    as [Hn Hp].
  rewrite Hn, Hp, order_by_length in Hi.
  do 2 eexists. split; [exact Hi|].
  rewrite index_items_slice;
    [reflexivity | apply clamp_ge_1
     | exact (proj1 (page_in_range_clamp _) Hr)].
Qed.

Lemma index_locators_witness :
  exists items w',
    index (get_request "/" (Some 2)) (world_of_posts (sample_posts 25))
    = Ok (render_template "index.html"
            (IndexArgs items (Some "/?page=3") (Some "/?page=1")), w').
Proof.
  destruct (index_locators
              (get_request "/" (Some 2)) (world_of_posts (sample_posts 25))
              ltac:(now apply page_in_range_small))
    as (items & w' & H & _).
  exists items, w'. rewrite H. reflexivity.
Defined.

(** X15.  The archive's locators keep the filter: for a month in 1..12
    and a year in 1..9999 and a request whose page the database can be
    asked for, with p the requested page (1 when the request asks for
    less) and n the number of posts in the month's range, the next
    locator is the archive URL of the same month and year for page
    p + 1 exactly when 10 p < n, and the previous locator is that URL
    for page p - 1 exactly when p > 1. *)
Theorem archive_locators (month year : Z) (r : Request) (w : World) :
  1 <= month <= 12 ->
  1 <= year <= 9999 ->
  page_in_range (get_page r) ->
  let start := first_of_month year month in
  let stop := if month =? 12 then start
              else first_of_month year (month + 1) in
  let n := Z.of_nat (List.length (archive_rows start stop (posts (db w)))) in
  exists items w',
    archive month year r w
    = Ok (render_template "index.html"
            (IndexArgs items
               (if 10 * clamp (get_page r) <? n
                then Some (url_for (ep_archive month year)
                                   (Some (clamp (get_page r) + 1)))
                else None)
               (if clamp (get_page r) >? 1
                then Some (url_for (ep_archive month year)
                                   (Some (clamp (get_page r) - 1)))
                else None)), w').
Proof.
  intros Hm Hy Hr start stop n.
  destruct (archive_valid month year r w Hm Hy Hr) as (w' & Ha & _).
  destruct (locators_of_page (ep_archive month year)
              (archive_rows start stop (posts (db w))) (get_page r))
    as [Hn Hp].
  fold start in Ha. fold stop in Ha. rewrite Hn, Hp in Ha.
  do 2 eexists. exact Ha.
Qed.

Lemma archive_locators_witness :
  exists items w',
    archive 1 2024 (get_request "/archive/1/2024" (Some 2))
            (world_of_posts (sample_posts 25))
    = Ok (render_template "index.html"
            (IndexArgs items (Some "/archive/1/2024?page=3")
                             (Some "/archive/1/2024?page=1")), w').
Proof.
  destruct (archive_locators 1 2024
              (get_request "/archive/1/2024" (Some 2))
              (world_of_posts (sample_posts 25))
              ltac:(lia) ltac:(lia) ltac:(now apply page_in_range_small))
    as (items & w' & H).
  exists items, w'. rewrite H. reflexivity.
Defined.

Lemma index_page_overflow (r : Request) (w : World) :
  ~ page_in_range (get_page r) -> index r w = Raise OverflowError.
Proof.
  intros Hr. unfold index, bind, get_world. now rewrite paginate_overflow.
Qed.

(** X22.  A page number whose offset is beyond every 64-bit integer
    (page 1844674407370955163 or more, as in
    [?page=99999999999999999999]) makes both listings fail: the index
    raises, and so does the archive of a month in 1..12 and a year in
    1..9999, instead of answering an empty page. *)
Theorem listing_page_overflow
    (month year : Z) (r : Request) (w : World) :
  1844674407370955163 <= get_page r ->
  1 <= month <= 12 ->
  1 <= year <= 9999 ->
  (exists e, index r w = Raise e)
  /\ (exists e, archive month year r w = Raise e).
Proof.
  intros Hp Hm Hy.
  assert (Hr : ~ page_in_range (get_page r)).
  { unfold page_in_range, OFFSET_MAX. rewrite clamp_id by lia. lia. }
  split; exists OverflowError.
  - now apply index_page_overflow.
  - now apply archive_page_overflow.
Qed.

Lemma listing_page_overflow_witness :
  (exists e,
      index (get_request "/" (Some 99999999999999999999))
            (world_of_posts (sample_posts 3)) = Raise e)
  /\ (exists e,
        archive 1 2024
                (get_request "/archive/1/2024" (Some 99999999999999999999))
                (world_of_posts (sample_posts 3)) = Raise e).
Proof.
  split.
  - apply (proj1 (listing_page_overflow 1 2024
                    (get_request "/" (Some 99999999999999999999))
                    (world_of_posts (sample_posts 3))
                    ltac:(vm_compute; discriminate) ltac:(lia) ltac:(lia))).
  - apply (proj2 (listing_page_overflow 1 2024
                    (get_request "/archive/1/2024"
                                 (Some 99999999999999999999))
                    (world_of_posts (sample_posts 3))
                    ltac:(vm_compute; discriminate) ltac:(lia) ltac:(lia))).
Defined.

(** ** Creating posts *)

Lemma Length_10 (f : Field) :
  Length 10 f
  = if (10 <=? String.length (data f))%nat then None
    else Some "Field must be at least 10 characters long.".
Proof.
  unfold Length.
  assert (Hl : (if truthy (data f) then Z.of_nat (String.length (data f))
                else 0) = Z.of_nat (String.length (data f)))
    by now destruct (data f).
  rewrite Hl.
  destruct (Nat.leb_spec 10 (String.length (data f)));
    destruct (Z.leb_spec 10 (Z.of_nat (String.length (data f))));
    try lia; reflexivity.
Qed.

Lemma CreateForm_validate_init (c : option string) (t b : string) :
  CreateForm.validate c (CreateForm.init t b)
  = (CreateForm.mk
       (mk_field t (if has_nonspace t then []
                    else ["This field is required."]))
       (mk_field b (if (10 <=? String.length b)%nat then []
                    else ["Field must be at least 10 characters long."]))
       (csrf_validate c),
     has_nonspace t && (10 <=? String.length b)%nat
     && no_csrf_errors (csrf_validate c)).
Proof.
  unfold CreateForm.validate, CreateForm.FlaskForm_validate, CreateForm.init.
  cbn [CreateForm.title CreateForm.body].
  unfold Field_validate, Field_validate_length. rewrite Length_10.
  cbn [data].
  destruct (has_nonspace t) eqn:Ht.
  - rewrite (proj2 (DataRequired_present (mk_field t [])) Ht).
    destruct (10 <=? String.length b)%nat; destruct c; reflexivity.
  - destruct (DataRequired (mk_field t [])) eqn:Hd.
    + unfold DataRequired in Hd.
      destruct (truthy (data (mk_field t []))
                && truthy (strip (data (mk_field t [])))); [discriminate|].
      injection Hd as <-.
      destruct (10 <=? String.length b)%nat; destruct c; reflexivity.
    + apply DataRequired_present in Hd. cbn [data] in Hd. congruence.
Qed.

(** X16.  The create form is valid exactly when the title has a
    character that is not whitespace, the body has at least 10
    characters (whitespace counts) and the CSRF token validates; a
    title that fails carries "This field is required.", a body that
    fails carries "Field must be at least 10 characters long.", a token
    that fails carries the message of the CSRF check, and a field that
    passes has no error. *)
Theorem create_form_valid_iff (c : option string) (t b : string) :
  (snd (CreateForm.validate c (CreateForm.init t b)) = true
   <-> has_nonspace t = true /\ (10 <= String.length b)%nat /\ c = None)
  /\ errors (CreateForm.title
               (fst (CreateForm.validate c (CreateForm.init t b))))
     = (if has_nonspace t then [] else ["This field is required."])
  /\ errors (CreateForm.body
               (fst (CreateForm.validate c (CreateForm.init t b))))
     = (if (10 <=? String.length b)%nat then []
        else ["Field must be at least 10 characters long."])
  /\ CreateForm.csrf_token_errors
       (fst (CreateForm.validate c (CreateForm.init t b)))
     = match c with
       | None => []
       | Some msg => [msg]
       end.
Proof.
  rewrite CreateForm_validate_init. cbn [fst snd CreateForm.title
    CreateForm.body CreateForm.csrf_token_errors errors].
  split; [|split; [reflexivity|split; [reflexivity|]]].
  - rewrite !andb_true_iff, Nat.leb_le.
    destruct c as [msg|]; cbn [csrf_validate no_csrf_errors].
    + split; [intros [_ H]; discriminate | intros (_ & _ & H); discriminate].
    + tauto.
  - now destruct c.
Qed.

Lemma create_invalid_eq (utcnow : datetime) (r : CreateRequest) :
  method (base r) = GET
  \/ has_nonspace (form_title r) = false
  \/ (String.length (form_body r) < 10)%nat ->
  exists form,
    forall w, create utcnow r w = Ok (render_create "create.html" form, w).
Proof.
  intros H. unfold create, is_submitted. cbv zeta.
  destruct (method (base r)) eqn:Hm; [eexists; reflexivity|].
  rewrite CreateForm_validate_init.
  destruct H as [H|[H|H]]; [discriminate| |].
  - rewrite H. cbn [andb]. eexists; reflexivity.
  - replace (10 <=? String.length (form_body r))%nat with false
      by (symmetry; apply Nat.leb_gt; exact H).
    rewrite andb_false_r. cbn [andb]. eexists; reflexivity.
Qed.

(** X17.  A request to create that is not a valid submission stores
    nothing: on a GET request, or when the title is blank or the body
    shorter than 10 characters, [create] renders the create page, the
    same over every store, and the world is exactly as before, with no
    query made. *)
Theorem create_invalid_unchanged
    (utcnow : datetime) (r : CreateRequest) (w : World) :
  method (base r) = GET
  \/ has_nonspace (form_title r) = false
  \/ (String.length (form_body r) < 10)%nat ->
  exists form,
    create utcnow r w = Ok (render_create "create.html" form, w)
    /\ forall w2, create utcnow r w2 = Ok (render_create "create.html" form, w2).
Proof.
  intros H. destruct (create_invalid_eq utcnow r H) as (form & Hc).
  exists form. split; [apply Hc | exact Hc].
Qed.

Lemma create_invalid_unchanged_witness :
  exists form,
    create (mk_datetime 2024 5 1 9 0 0 0) (post_create "Hello" "too short")
           (world_of_posts (sample_posts 3))
    = Ok (render_create "create.html" form, world_of_posts (sample_posts 3)).
Proof.
  destruct (create_invalid_unchanged
              (mk_datetime 2024 5 1 9 0 0 0) (post_create "Hello" "too short")
              (world_of_posts (sample_posts 3)))
    as (form & H & _).
  - right. right. vm_compute. lia.
  - exists form. exact H.
Defined.

Lemma create_valid_eq
    (utcnow : datetime) (r : CreateRequest) (w : World)
    (cat : option Category.t) :
  method (base r) = POST ->
  csrf (base r) = None ->
  has_nonspace (form_title r) = true ->
  (10 <= String.length (form_body r))%nat ->
  db_session w = [] ->
  one_or_none (filter (fun c => String.eqb (Category.name c) "All")
                      (categories (db w))) = Ok cat ->
  create utcnow r w
  = Ok (redirect_create (mk_location "/" None),
        mk_world
          (mk_db (users (db w))
                 (posts (db w)
                  ++ [Post.mk (next_id (map Post.id (posts (db w))))
                              (form_title r) (form_body r) utcnow
                              (option_map Category.id cat)])
                 (categories (db w)))
          [] (session_user_id w)
          (flashes w ++ ["Blog Post Successfuly Created"])
          (query_log w ++ [TCategory])).
Proof.
  intros Hm Hc Ht Hb Hs Hcat. unfold create, is_submitted. cbv zeta.
  rewrite Hm.
  rewrite CreateForm_validate_init, Ht, Hc.
  replace (10 <=? String.length (form_body r))%nat with true
    by (symmetry; apply Nat.leb_le; exact Hb).
  cbn [andb csrf_validate no_csrf_errors CreateForm.title CreateForm.body
       CreateForm.csrf_token_errors data errors].
  unfold bind, Category_filter_by_name, bind, log_query, get_world, lift.
  cbn [db categories]. rewrite Hcat.
  unfold db_session_add_commit_post. cbn [db db_session]. rewrite Hs.
  reflexivity.
Qed.

(** X18.  A valid submission (a valid CSRF token, a title that is not
    blank, a body of at least 10 characters) with nothing else pending and at most one
    category named "All" stores exactly one new post: it goes after the
    posts stored before, which are untouched, under a fresh id, with
    the submitted title and body, the current time as publish time, and
    the id of the "All" category, or no category when there is none.
    Users and categories are as before, the message "Blog Post
    Successfuly Created" is flashed, and the answer is a redirect to
    the index. *)
Theorem create_valid_stores_post
    (utcnow : datetime) (r : CreateRequest) (w : World)
    (cat : option Category.t) :
  method (base r) = POST ->
  csrf (base r) = None ->
  has_nonspace (form_title r) = true ->
  (10 <= String.length (form_body r))%nat ->
  db_session w = [] ->
  one_or_none (filter (fun c => String.eqb (Category.name c) "All")
                      (categories (db w))) = Ok cat ->
  exists w' i,
    create utcnow r w = Ok (redirect_create (mk_location "/" None), w')
    /\ posts (db w')
       = posts (db w)
         ++ [Post.mk i (form_title r) (form_body r) utcnow
                     (option_map Category.id cat)]
    /\ (forall p, In p (posts (db w)) -> Post.id p <> i)
    /\ users (db w') = users (db w)
    /\ categories (db w') = categories (db w)
    /\ flashes w' = flashes w ++ ["Blog Post Successfuly Created"]
    /\ session_user_id w' = session_user_id w.
Proof.
  intros Hm Hc Ht Hb Hs Hcat.
  rewrite (create_valid_eq utcnow r w cat Hm Hc Ht Hb Hs Hcat).
  do 2 eexists. split; [reflexivity|]. cbn [db posts users categories
    flashes session_user_id].
  split; [reflexivity|]. split; [|auto].
  intros p Hp Heq.
  destruct (next_id_fresh (map Post.id (posts (db w)))) as [_ Hfresh].
  apply Hfresh. rewrite <- Heq. now apply in_map.
Qed.

Lemma create_valid_stores_post_witness :
  exists w' i,
    create (mk_datetime 2024 5 1 9 0 0 0)
           (post_create "Hello" "A first post.")
           (world_of (mk_db [] (sample_posts 2) [Category.mk 1 "All"]))
    = Ok (redirect_create (mk_location "/" None), w')
    /\ posts (db w')
       = sample_posts 2
         ++ [Post.mk i "Hello" "A first post."
                     (mk_datetime 2024 5 1 9 0 0 0) (Some 1)].
Proof.
  destruct (create_valid_stores_post
              (mk_datetime 2024 5 1 9 0 0 0)
              (post_create "Hello" "A first post.")
              (world_of (mk_db [] (sample_posts 2) [Category.mk 1 "All"]))
              (Some (Category.mk 1 "All"))
              eq_refl eq_refl eq_refl ltac:(vm_compute; lia) eq_refl eq_refl)
    as (w' & i & Hc & Hp & _).
  exists w', i. split; [exact Hc | exact Hp].
Defined.

(** X19.  Category names are not unique: when two or more categories
    are named "All", a valid submission (a valid CSRF token, a title
    that is not blank, a body of at least 10 characters) raises
    [MultipleResultsFound] and stores nothing. *)
Theorem create_ambiguous_category
    (utcnow : datetime) (r : CreateRequest) (w : World)
    (c1 c2 : Category.t) (rest : list Category.t) :
  method (base r) = POST ->
  csrf (base r) = None ->
  has_nonspace (form_title r) = true ->
  (10 <= String.length (form_body r))%nat ->
  filter (fun c => String.eqb (Category.name c) "All") (categories (db w))
  = c1 :: c2 :: rest ->
  create utcnow r w = Raise MultipleResultsFound.
Proof.
  intros Hm Hc Ht Hb Hf. unfold create, is_submitted. cbv zeta. rewrite Hm.
  rewrite CreateForm_validate_init, Ht, Hc.
  replace (10 <=? String.length (form_body r))%nat with true
    by (symmetry; apply Nat.leb_le; exact Hb).
  cbn [andb csrf_validate no_csrf_errors].
  unfold bind, Category_filter_by_name, bind, log_query, get_world, lift.
  cbn [db categories]. now rewrite Hf.
Qed.

Lemma create_ambiguous_category_witness :
  create (mk_datetime 2024 5 1 9 0 0 0)
         (post_create "Hello" "A first post.")
         (world_of (mk_db [] [] [Category.mk 1 "All"; Category.mk 2 "All"]))
  = Raise MultipleResultsFound.
Proof.
  apply (create_ambiguous_category
           (mk_datetime 2024 5 1 9 0 0 0)
           (post_create "Hello" "A first post.")
           (world_of (mk_db [] [] [Category.mk 1 "All"; Category.mk 2 "All"]))
           (Category.mk 1 "All") (Category.mk 2 "All") []
           eq_refl eq_refl eq_refl ltac:(vm_compute; lia) eq_refl).
Defined.

Lemma insert_desc_newest (x : Post.t) (l : list Post.t) (a : Post.t) :
  datetime_lt (Post.pub_date a) (Post.pub_date x) = true ->
  insert_desc a (x :: l) = x :: insert_desc a l.
Proof.
  intros H. cbn [insert_desc]. rewrite datetime_lt_le in H.
  destruct (datetime_le (Post.pub_date x) (Post.pub_date a));
    [discriminate | reflexivity].
Qed.

Lemma order_by_newest_last (l : list Post.t) (x : Post.t) :
  (forall p, In p l ->
             datetime_lt (Post.pub_date p) (Post.pub_date x) = true) ->
  order_by_pub_date_desc (l ++ [x]) = x :: order_by_pub_date_desc l.
Proof.
  induction l as [|a l IH]; intros H; [reflexivity|].
  cbn [app order_by_pub_date_desc].
  rewrite IH by (intros p Hp; apply H; now right).
  apply insert_desc_newest. apply H. now left.
Qed.

(** X20.  A new post is the first item of the index: after a valid
    submission (a valid CSRF token, a title that is not blank, a body
    of at least 10 characters) made later than the publish time of
    every stored post, page 1 of the index starts with the post just
    created. *)
Theorem create_then_index_first
    (utcnow : datetime) (r : CreateRequest) (r1 : Request) (w : World)
    (cat : option Category.t) :
  method (base r) = POST ->
  csrf (base r) = None ->
  has_nonspace (form_title r) = true ->
  (10 <= String.length (form_body r))%nat ->
  db_session w = [] ->
  one_or_none (filter (fun c => String.eqb (Category.name c) "All")
                      (categories (db w))) = Ok cat ->
  (forall p, In p (posts (db w)) ->
             datetime_lt (Post.pub_date p) utcnow = true) ->
  get_page r1 = 1 ->
  exists resp w' i others next prev w'',
    create utcnow r w = Ok (resp, w')
    /\ index r1 w'
       = Ok (render_template "index.html"
               (IndexArgs
                  (Post.mk i (form_title r) (form_body r) utcnow
                           (option_map Category.id cat) :: others)
                  next prev), w'')
    /\ others = firstn 9 (order_by_pub_date_desc (posts (db w))).
Proof.
  intros Hm Hcs Ht Hb Hs Hcat Hlate H1.
  pose proof (create_valid_eq utcnow r w cat Hm Hcs Ht Hb Hs Hcat) as Hc.
  assert (Hr : page_in_range (get_page r1))
    by (rewrite H1; now apply page_in_range_small).
  match type of Hc with
  | _ = Ok (_, ?b) => destruct (index_eq r1 b Hr) as (w'' & _ & Hi & _)
  end.
  rewrite H1 in Hi. cbn [db posts Pagination.items page_of] in Hi.
  change (clamp 1) with 1 in Hi. unfold slice in Hi.
  change (Z.to_nat ((1 - 1) * 10)) with 0%nat in Hi.
  rewrite order_by_newest_last in Hi by exact Hlate.
  rewrite skipn_0 in Hi.
  change (firstn 10 (?x :: ?l)) with (x :: firstn 9 l) in Hi.
  do 7 eexists. split; [exact Hc|]. split; [exact Hi | reflexivity].
Qed.

Lemma create_then_index_first_witness :
  exists resp w' i others next prev w'',
    create (mk_datetime 2024 5 1 9 0 0 0)
           (post_create "Hello" "A first post.")
           (world_of_posts (sample_posts 12))
    = Ok (resp, w')
    /\ index (get_request "/" None) w'
       = Ok (render_template "index.html"
               (IndexArgs
                  (Post.mk i "Hello" "A first post."
                           (mk_datetime 2024 5 1 9 0 0 0) None :: others)
                  next prev), w'').
Proof.
  destruct (create_then_index_first
              (mk_datetime 2024 5 1 9 0 0 0)
              (post_create "Hello" "A first post.")
              (get_request "/" None)
              (world_of_posts (sample_posts 12)) None
              eq_refl eq_refl eq_refl ltac:(vm_compute; lia) eq_refl eq_refl)
    as (resp & w' & i & others & next & prev & w'' & Hc & Hi & _).
  - intros p Hp. vm_compute in Hp.
    repeat (destruct Hp as [<-|Hp]; [reflexivity|]). contradiction.
  - reflexivity.
  - exists resp, w', i, others, next, prev, w''. split; assumption.
Defined.

(** X21.  Seeding does not give posts a category: from a state with
    nothing pending, no user blogger@sample.com and no category named
    "All", after [initialize_data] a valid submission (a valid CSRF
    token, a title that is not blank, a body of at least 10 characters)
    stores its post with no category. *)
Theorem seed_then_create_uncategorised
    (utcnow : datetime) (r : CreateRequest) (w : World) :
  db_session w = [] ->
  (forall u, In u (users (db w)) -> User.email u <> "blogger@sample.com") ->
  (forall c, In c (categories (db w)) -> Category.name c <> "All") ->
  method (base r) = POST ->
  csrf (base r) = None ->
  has_nonspace (form_title r) = true ->
  (10 <= String.length (form_body r))%nat ->
  exists w1 resp w2 i,
    initialize_data w = Ok (tt, w1)
    /\ create utcnow r w1 = Ok (resp, w2)
    /\ posts (db w2)
       = posts (db w)
         ++ [Post.mk i (form_title r) (form_body r) utcnow None]
    /\ categories (db w2) = categories (db w).
Proof.
  intros Hs Hno Hnc Hm Hcs Ht Hb.
  pose proof (initialize_data_absent w Hs Hno) as Hi.
  assert (Hf : filter (fun c => String.eqb (Category.name c) "All")
                      (categories (db w)) = []).
  { clear -Hnc. induction (categories (db w)) as [|c cs IH];
      [reflexivity|]. cbn [filter].
    destruct (String.eqb_spec (Category.name c) "All") as [Heq|_].
    - exfalso. apply (Hnc c); [now left | exact Heq].
    - apply IH. intros c' Hc'. apply Hnc. now right. }
  match type of Hi with
  | _ = Ok (_, ?b) =>
      exists b;
      pose proof (create_valid_eq utcnow r b None Hm Hcs Ht Hb eq_refl) as Hc
  end.
  cbn [db categories] in Hc. rewrite Hf in Hc. specialize (Hc eq_refl).
  do 3 eexists. split; [exact Hi|]. split; [exact Hc|].
  cbn [db posts categories option_map]. split; reflexivity.
Qed.

Lemma seed_then_create_uncategorised_witness :
  exists w1 resp w2 i,
    initialize_data (world_of (mk_db [] [] [])) = Ok (tt, w1)
    /\ create (mk_datetime 2024 5 1 9 0 0 0)
              (post_create "Hello" "A first post.") w1
       = Ok (resp, w2)
    /\ posts (db w2)
       = [Post.mk i "Hello" "A first post."
                  (mk_datetime 2024 5 1 9 0 0 0) None].
Proof.
  destruct (seed_then_create_uncategorised
              (mk_datetime 2024 5 1 9 0 0 0)
              (post_create "Hello" "A first post.")
              (world_of (mk_db [] [] []))
              eq_refl
              (fun u (H : In u []) => False_ind _ H)
              (fun c (H : In c []) => False_ind _ H)
              eq_refl eq_refl eq_refl ltac:(vm_compute; lia))
    as (w1 & resp & w2 & i & H1 & H2 & Hp & _).
  exists w1, resp, w2, i. repeat split; assumption.
Defined.
